(** * brainrotcodex: placeholder engine and metadata accessor of [main.py]

    A shallow embedding of the functions of [src/main.py] that do the work
    behind the forms: [extract_placeholders], [replace_placeholders], the
    four readers and writers of document metadata, the two clearers, and the
    extension dispatch of the form handlers.

    Python strings are [string]s, a character being an [ascii] (for text
    beyond ASCII, a byte of its UTF-8 encoding, which keeps substrings and
    the order of strings); the [dict] of replacements is an association
    list in insertion order, which is the order [dict.items()] iterates in;
    the [set] of found names is a [gset]; the file system is a finite map
    from paths to files. python-docx, PyPDF2, [tempfile] and [shutil] are
    not part of the repository: documents are modelled by the parts the
    source works on, the core properties of a word-processing document by
    the properties python-docx gives them (reading or assigning any other
    name is Python's attribute lookup on the object), and the calls that
    touch the disk by what they leave on it, with the failures left to an
    environment. *)

From stdpp Require Import gmap strings list sorting.
From Stdlib Require Import Ascii String.

Local Open Scope string_scope.
Local Open Scope list_scope.

(** ** Python [str] operations used by the source *)

Module Str.

(** [s.endswith(suf)]: some suffix of [s] is [suf]. *)
Fixpoint endswith (s suf : string) : bool :=
  if String.eqb s suf then true
  else match s with
       | "" => false
       | String _ s' => endswith s' suf
       end.

(** [s.lower()] on the ASCII letters. *)
Definition lower_char (c : ascii) : ascii :=
  let n := nat_of_ascii c in
  if (65 <=? n)%nat && (n <=? 90)%nat then ascii_of_nat (n + 32) else c.

Fixpoint lower (s : string) : string :=
  match s with
  | "" => ""
  | String c s' => String (lower_char c) (lower s')
  end.

(** [old in s]: [old] occurs in [s] as a substring. *)
Fixpoint contains (s old : string) : bool :=
  if String.prefix old s then true
  else match s with
       | "" => false
       | String _ s' => contains s' old
       end.

(** [s.replace("", new)]: [new] before every character and at the end. *)
Fixpoint interleave (new s : string) : string :=
  match s with
  | "" => new
  | String c s' => new +:+ String c (interleave new s')
  end.

(** One left-to-right scan of [s.replace(old, new)] for a non-empty [old].
    [skip] counts the characters of the occurrence just replaced that the
    scan still has to step over, so occurrences never overlap and the
    scan only ever reads [s], never what it has produced. *)
Fixpoint replace_from (old new : string) (skip : nat) (s : string) : string :=
  match s with
  | "" => ""
  | String c s' =>
      match skip with
      | S k => replace_from old new k s'
      | O =>
          if String.prefix old s
          then new +:+ replace_from old new (String.length old - 1) s'
          else String c (replace_from old new 0 s')
      end
  end.

(** [s.replace(old, new)]. *)
Definition replace (s old new : string) : string :=
  match old with
  | "" => interleave new s
  | _ => replace_from old new 0 s
  end.

(** [x or ""] for a value that is a string or [None]. *)
Definition or_empty (x : option string) : string := default "" x.

(** Truthiness of a string or [None]. *)
Definition truthy (x : option string) : bool :=
  match x with
  | Some (String _ _) => true
  | _ => false
  end.

(** [s or None] for a string [s]. *)
Definition or_None (s : string) : option string :=
  match s with
  | "" => None
  | _ => Some s
  end.

(** [str(x)] for a value that is a string or [None]. *)
Definition str (x : option string) : string := default "None" x.

End Str.

(** ** The placeholder pattern

    [PLACEHOLDER_PATTERN = re.compile(r"\{\{([A-Za-z0-9_]+)\}\}")]. *)

Module Pattern.

(** The character class [[A-Za-z0-9_]]. *)
Definition is_word (c : ascii) : bool :=
  let n := nat_of_ascii c in
  ((65 <=? n)%nat && (n <=? 90)%nat)
  || ((97 <=? n)%nat && (n <=? 122)%nat)
  || ((48 <=? n)%nat && (n <=? 57)%nat)
  || (n =? 95)%nat.

(** The greedy [[A-Za-z0-9_]+]: the longest run of word characters at the
    head of [s]. *)
Fixpoint word_run (s : string) : string :=
  match s with
  | String c s' => if is_word c then String c (word_run s') else ""
  | "" => ""
  end.

Fixpoint drop (n : nat) (s : string) : string :=
  match n, s with
  | S k, String _ s' => drop k s'
  | _, _ => s
  end.

(** A match of the pattern at the head of [s], giving group 1. The class
    excludes [}], so giving characters of the greedy run back never helps:
    the match succeeds exactly when [}}] follows the longest run. *)
Definition match_here (s : string) : option string :=
  match s with
  | String "{" (String "{" s1) =>
      match word_run s1 with
      | "" => None
      | name =>
          if String.prefix "}}" (drop (String.length name) s1)
          then Some name else None
      end
  | _ => None
  end.

(** [PLACEHOLDER_PATTERN.findall(s)]: the captured names of the
    non-overlapping matches, leftmost first. After a match the scan
    resumes behind it: [skip] counts what is left of it. *)
Fixpoint findall_from (skip : nat) (s : string) : list string :=
  match s with
  | "" => []
  | String _ s' =>
      match skip with
      | S k => findall_from k s'
      | O =>
          match match_here s with
          | Some name => name :: findall_from (String.length name + 3) s'
          | None => findall_from 0 s'
          end
      end
  end.

Definition findall (s : string) : list string := findall_from 0 s.

End Pattern.

(** [f"{{{{{key}}}}}"]: the literal token searched for a key. *)
Definition placeholder (key : string) : string := "{{" +:+ key +:+ "}}".

(** ** Documents as python-docx presents them

    A paragraph is a sequence of runs and its [text] is the concatenation of
    theirs. Paragraph objects are proxies on the paragraph elements of the
    package, which the substitutor mutates in place: the elements live in a
    store ([store]) and the body, the table cells and the headers and
    footers list the positions of their paragraphs in it. A cell that spans
    several columns is reported once per column and a header linked to the
    previous section is the previous section's header, so a position may
    occur more than once in a traversal. *)

Record Run := { run_text : string; run_rPr : option string }.

Record Paragraph := { runs : list Run }.

(** [paragraph.text]. *)
Definition paragraph_text (p : Paragraph) : string :=
  foldr (fun r acc => run_text r +:+ acc) "" (runs p).

Record Section := { header : list nat; footer : list nat }.

(** [row.cells], each cell given by its [cell.paragraphs]. *)
Definition Row : Type := list (list nat).

(** [table.rows]. *)
Definition Table : Type := list Row.

(** [document.core_properties] as python-docx has it: the text of the
    elements [dc:title], [dc:creator], [dc:description] and [cp:category]
    of the package, [None] for an element that is absent. The class
    [CoreProperties] presents them as the properties [title], [author],
    [comments] and [category]; it has no property named [creator] or
    [description]. *)
Record CoreProperties := {
  title : option string;
  author : option string;
  comments : option string;
  category : option string
}.

Record Document := {
  store : list Paragraph;
  paragraphs : list nat;
  tables : list Table;
  sections : list Section;
  core_properties : CoreProperties
}.

(** A replacement map: the entries of the [dict] in insertion order. *)
Definition dict : Type := list (string * string).

(** The positions the scanner and the substitutor visit, in their order:
    the body, then every table row by row and cell by cell, then the header
    and the footer of every section. *)
Definition table_paragraphs (t : Table) : list nat :=
  row ← t; cell ← row; cell.

Definition section_paragraphs (s : Section) : list nat :=
  header s ++ footer s.

Definition traversal (d : Document) : list nat :=
  paragraphs d ++ (tables d ≫= table_paragraphs) ++ (sections d ≫= section_paragraphs).

(** *** [extract_placeholders] *)

(** The inner [collect_from_paragraphs], threading the set [found]. *)
Definition collect_from_paragraphs (els : list Paragraph) (ps : list nat)
    (found : gset string) : gset string :=
  foldl (fun found i =>
           match els !! i with
           | Some paragraph =>
               foldl (fun found name => {[name]} ∪ found) found
                     (Pattern.findall (paragraph_text paragraph))
           | None => found
           end) found ps.

(** [sorted(found)]. *)
Definition sorted (found : gset string) : list string :=
  merge_sort String.le (elements found).

(** The body of [extract_placeholders] on an opened document. *)
Definition extract_placeholders_of (document : Document) : list string :=
  let els := store document in
  let found := collect_from_paragraphs els (paragraphs document) ∅ in
  let found :=
    foldl (fun found table =>
      foldl (fun found row =>
        foldl (fun found cell => collect_from_paragraphs els cell found) found row)
      found table) found (tables document) in
  let found :=
    foldl (fun found section =>
      collect_from_paragraphs els (footer section)
        (collect_from_paragraphs els (header section) found))
      found (sections document) in
  sorted found.

(** *** [replace_placeholders] *)

(** The text a paragraph gets: one [str.replace] per entry of the map, in
    the map's order, each on the result of the one before. *)
Definition new_text (replacements : dict) (original_text : string) : string :=
  foldl (fun text kv => Str.replace text (placeholder kv.1) kv.2)
        original_text replacements.

(** [paragraph.add_run(text)]: a run without run properties. *)
Definition add_run (text : string) : Run := {| run_text := text; run_rPr := None |}.

(** The body of the loop of [replace_in_paragraphs] on one paragraph. *)
Definition replace_in_paragraph (replacements : dict) (paragraph : Paragraph) : Paragraph :=
  let original_text := paragraph_text paragraph in
  let text := new_text replacements original_text in
  if String.eqb text original_text then paragraph
  else {| runs := [add_run text] |}.

(** The inner [replace_in_paragraphs]: the paragraphs are mutated in the
    store, one visit after the other. *)
Definition replace_in_paragraphs (replacements : dict) (ps : list nat)
    (els : list Paragraph) : list Paragraph :=
  foldl (fun els i =>
           match els !! i with
           | Some paragraph => <[i := replace_in_paragraph replacements paragraph]> els
           | None => els
           end) els ps.

(** The body of [replace_placeholders] on an opened document. *)
Definition replace_placeholders_of (replacements : dict) (document : Document) : Document :=
  let els := replace_in_paragraphs replacements (paragraphs document) (store document) in
  let els :=
    foldl (fun els table =>
      foldl (fun els row =>
        foldl (fun els cell => replace_in_paragraphs replacements cell els) els row)
      els table) els (tables document) in
  let els :=
    foldl (fun els section =>
      replace_in_paragraphs replacements (footer section)
        (replace_in_paragraphs replacements (header section) els))
      els (sections document) in
  {| store := els;
     paragraphs := paragraphs document;
     tables := tables document;
     sections := sections document;
     core_properties := core_properties document |}.

(** ** PDF documents as PyPDF2 presents them *)

(** [reader.pages] and [reader.metadata], the information dictionary, which
    is [None] for a file without one. *)
Record PdfDocument := {
  pages : list string;
  metadata : option (gmap string string)
}.

Record PdfWriter := {
  writer_pages : list string;
  writer_info : gmap string string
}.

(** [writer.add_page(page)]. *)
Definition add_page (writer : PdfWriter) (page : string) : PdfWriter :=
  {| writer_pages := writer_pages writer ++ [page]; writer_info := writer_info writer |}.

(** [writer.add_metadata(infos)]: the entries of [infos] are put into the
    writer's information dictionary. *)
Definition add_metadata (writer : PdfWriter) (infos : list (string * string)) : PdfWriter :=
  {| writer_pages := writer_pages writer;
     writer_info := foldl (fun info kv => <[kv.1 := kv.2]> info) (writer_info writer) infos |}.

(** What [writer.write] serialises. *)
Definition written (writer : PdfWriter) : PdfDocument :=
  {| pages := writer_pages writer; metadata := Some (writer_info writer) |}.

(** ** Files, exceptions and the library calls that touch the disk *)

Inductive file :=
  | DocxFile (document : Document)
  | PdfFile (pdf : PdfDocument)
  | OtherFile (content : string).

Record exn := Exception { exn_class : string; exn_msg : string }.

(** [raise ValueError(msg)]. *)
Definition ValueError (msg : string) : exn := Exception "ValueError" msg.

Inductive lib_call :=
  | Document_open
  | Document_save
  | PdfReader_open
  | PdfWriter_write
  | NamedTemporaryFile
  | shutil_move
  | CoreProperties_set.

(** A library call that fails raises the library's exception; a failing
    write may leave [debris] where it was writing. *)
Record failure := { raised : exn; debris : option string }.

(** What the program does not decide: the name a temporary file gets, the
    exception a library raises for a path that holds no document of its
    format, which library calls fail (the setters of the core properties
    among them), and the information dictionary of a fresh [PdfWriter()]. *)
Record env := {
  temp_name : gmap string file → string → string;
  open_error : lib_call → string → exn;
  fault : lib_call → option failure;
  fresh_info : gmap string string
}.

(** A computation on the file system that returns or raises. *)
Definition IO (A : Type) : Type :=
  gmap string file → (exn + A) * gmap string file.

Definition ret {A} (a : A) : IO A := fun fs => (inr a, fs).

Definition raise {A} (e : exn) : IO A := fun fs => (inl e, fs).

Definition bind {A B} (m : IO A) (k : A → IO B) : IO B :=
  fun fs =>
    match m fs with
    | (inr a, fs') => k a fs'
    | (inl e, fs') => (inl e, fs')
    end.

(** [try: m except Exception as exc: h(exc)]. *)
Definition try_except {A} (m : IO A) (h : exn → IO A) : IO A :=
  fun fs =>
    match m fs with
    | (inr a, fs') => (inr a, fs')
    | (inl e, fs') => h e fs'
    end.

Notation "'let!' x ':=' m 'in' k" := (bind m (fun x => k))
  (at level 10, x name, m at level 100, k at level 200).

(** Where a failing write leaves the file system. *)
Definition after_failure (f : failure) (path : string) (fs : gmap string file)
    : gmap string file :=
  match debris f with
  | Some content => <[path := OtherFile content]> fs
  | None => fs
  end.

Section Library.

Variable E : env.

(** [Document(path)]. *)
Definition Document_ (path : string) : IO Document := fun fs =>
  match fault E Document_open with
  | Some f => (inl (raised f), fs)
  | None =>
      match fs !! path with
      | Some (DocxFile document) => (inr document, fs)
      | _ => (inl (open_error E Document_open path), fs)
      end
  end.

(** What [props.name] raises when the class has no such attribute. *)
Definition AttributeError (name : string) : exn :=
  Exception "AttributeError"
    ("'CoreProperties' object has no attribute '" +:+ name +:+ "'").

(** The properties of [CoreProperties] among the names the source uses. *)
Definition is_property (name : string) : bool :=
  String.eqb name "title" || String.eqb name "author"
  || String.eqb name "comments" || String.eqb name "category".

(** [props.name]: the getter of a property returns the text of its
    element, the empty string when the element is absent; any other name
    raises. *)
Definition getattr (props : CoreProperties) (name : string) : IO string :=
  if String.eqb name "title" then ret (Str.or_empty (title props))
  else if String.eqb name "author" then ret (Str.or_empty (author props))
  else if String.eqb name "comments" then ret (Str.or_empty (comments props))
  else if String.eqb name "category" then ret (Str.or_empty (category props))
  else raise (AttributeError name).

(** What [props.name = value] leaves once the setter has accepted the
    value: the setter of a property stores [str(value)], so that [None] is
    stored as the text [None]; any other name becomes an attribute of the
    Python object [props], of which the document has nothing. *)
Definition assign (props : CoreProperties) (name : string) (value : option string)
    : CoreProperties :=
  if String.eqb name "title" then
    {| title := Some (Str.str value); author := author props;
       comments := comments props; category := category props |}
  else if String.eqb name "author" then
    {| title := title props; author := Some (Str.str value);
       comments := comments props; category := category props |}
  else if String.eqb name "comments" then
    {| title := title props; author := author props;
       comments := Some (Str.str value); category := category props |}
  else if String.eqb name "category" then
    {| title := title props; author := author props;
       comments := comments props; category := Some (Str.str value) |}
  else props.

(** [props.name = value]. The setter of a property can refuse the value
    (python-docx raises for a text of more than 255 characters): one of
    the failures left to the environment. *)
Definition setattr (props : CoreProperties) (name : string) (value : option string)
    : IO CoreProperties :=
  if is_property name then
    match fault E CoreProperties_set with
    | Some f => raise (raised f)
    | None => ret (assign props name value)
    end
  else ret (assign props name value).

(** [document.save(path)]. *)
Definition save (document : Document) (path : string) : IO unit := fun fs =>
  match fault E Document_save with
  | Some f => (inl (raised f), after_failure f path fs)
  | None => (inr tt, <[path := DocxFile document]> fs)
  end.

(** [PdfReader(path)]. *)
Definition PdfReader (path : string) : IO PdfDocument := fun fs =>
  match fault E PdfReader_open with
  | Some f => (inl (raised f), fs)
  | None =>
      match fs !! path with
      | Some (PdfFile pdf) => (inr pdf, fs)
      | _ => (inl (open_error E PdfReader_open path), fs)
      end
  end.

(** [PdfWriter()]. *)
Definition PdfWriter_ : PdfWriter :=
  {| writer_pages := []; writer_info := fresh_info E |}.

(** [writer.write(tmp)] on the open temporary file [name]. *)
Definition write (writer : PdfWriter) (name : string) : IO unit := fun fs =>
  match fault E PdfWriter_write with
  | Some f => (inl (raised f), after_failure f name fs)
  | None => (inr tt, <[name := PdfFile (written writer)]> fs)
  end.

(** [tempfile.NamedTemporaryFile(delete=False, suffix=...)]: a new, empty
    file; the result is its [name]. *)
Definition NamedTemporaryFile_ (suffix : string) : IO string := fun fs =>
  match fault E NamedTemporaryFile with
  | Some f => (inl (raised f), fs)
  | None =>
      let name := temp_name E fs suffix in
      (inr name, <[name := OtherFile ""]> fs)
  end.

(** [shutil.move(src, dst)]. *)
Definition move (src dst : string) : IO unit := fun fs =>
  match fault E shutil_move with
  | Some f => (inl (raised f), after_failure f dst fs)
  | None =>
      match fs !! src with
      | Some content => (inr tt, <[dst := content]> (delete src fs))
      | None => (inl (open_error E shutil_move src), fs)
      end
  end.

End Library.

(** ** The functions of [main.py] *)

Section Program.

Variable E : env.

Definition extract_placeholders (docx_path : string) : IO (list string) :=
  let! document := Document_ E docx_path in
  ret (extract_placeholders_of document).

Definition replace_placeholders (docx_path : string) (replacements : dict)
    (output_path : string) : IO unit :=
  let! document := Document_ E docx_path in
  let document := replace_placeholders_of replacements document in
  save E document output_path.

(** The four-key record the readers return. *)
Definition record (t c d g : string) : list (string * string) :=
  [("DC:TITLE", t); ("DC:CREATOR", c); ("CP:DESCRIPTION", d); ("CP:CATEGORY", g)].

(** The values of the dict display are evaluated in its order: the title,
    then the author and, when that is empty, [props.creator], then
    [props.description]. *)
Definition read_docx_metadata (path : string) : IO (list (string * string)) :=
  let! document := Document_ E path in
  let props := core_properties document in
  let! t := getattr props "title" in
  let! a := getattr props "author" in
  let! c :=
    (if Str.truthy (Some a) then ret a
     else let! c := getattr props "creator" in ret (Str.or_empty (Some c))) in
  let! d := getattr props "description" in
  let! g := getattr props "category" in
  ret (record (Str.or_empty (Some t)) c (Str.or_empty (Some d))
              (Str.or_empty (Some g))).

(** The document with other core properties. *)
Definition with_core_properties (document : Document) (props : CoreProperties)
    : Document :=
  {| store := store document;
     paragraphs := paragraphs document;
     tables := tables document;
     sections := sections document;
     core_properties := props |}.

(** The document after the five assignments to [props] in
    [write_docx_metadata], when the setters accept the values. *)
Definition set_core_properties (document : Document)
    (title creator description category : string) : Document :=
  let props := core_properties document in
  let props := assign props "title" (Str.or_None title) in
  let props := assign props "author" (Str.or_None creator) in
  let props := assign props "creator" (Str.or_None creator) in
  let props := assign props "description" (Str.or_None description) in
  let props := assign props "category" (Str.or_None category) in
  with_core_properties document props.

Definition write_docx_metadata (path title creator description category : string)
    : IO unit :=
  let! document := Document_ E path in
  let props := core_properties document in
  let! props := setattr E props "title" (Str.or_None title) in
  let! props := setattr E props "author" (Str.or_None creator) in
  let! props := setattr E props "creator" (Str.or_None creator) in
  let! props := setattr E props "description" (Str.or_None description) in
  let! props := setattr E props "category" (Str.or_None category) in
  let document := with_core_properties document props in
  let! temp_name := NamedTemporaryFile_ E ".docx" in
  let! _ := save E document temp_name in
  move E temp_name path.

Definition clear_docx_metadata (path : string) : IO unit :=
  write_docx_metadata path "" "" "" "".

(** [metadata.get(key, "")] on [reader.metadata or {}]. *)
Definition info_get (metadata : option (gmap string string)) (key : string) : string :=
  default "" (default ∅ metadata !! key).

Definition read_pdf_metadata (path : string) : IO (list (string * string)) :=
  let! reader := PdfReader E path in
  let metadata := metadata reader in
  ret (record (info_get metadata "/Title") (info_get metadata "/Author")
              (info_get metadata "/Subject") (info_get metadata "/Category")).

(** [for page in reader.pages: writer.add_page(page)]. *)
Definition add_pages (writer : PdfWriter) (reader : PdfDocument) : PdfWriter :=
  foldl add_page writer (pages reader).

Definition write_pdf_metadata (path title creator description category : string)
    : IO unit :=
  let! reader := PdfReader E path in
  let writer := PdfWriter_ E in
  let writer := add_pages writer reader in
  let writer :=
    add_metadata writer
      [("/Title", Str.or_empty (Some title));
       ("/Author", Str.or_empty (Some creator));
       ("/Subject", Str.or_empty (Some description));
       ("/Category", Str.or_empty (Some category))] in
  let! temp_name := NamedTemporaryFile_ E ".pdf" in
  let! _ := write E writer temp_name in
  move E temp_name path.

Definition clear_pdf_metadata (path : string) : IO unit :=
  let! reader := PdfReader E path in
  let writer := PdfWriter_ E in
  let writer := add_pages writer reader in
  let! temp_name := NamedTemporaryFile_ E ".pdf" in
  let! _ := write E writer temp_name in
  move E temp_name path.

(** *** The form handlers: dispatch on the extension *)

Inductive dialog :=
  | showinfo (caption message : string)
  | showerror (caption message : string).

(** The [try] block of [CurriculumApp._clear_metadata]. *)
Definition _clear_metadata_try (path : string) : IO dialog :=
  let! _ :=
    (if Str.endswith (Str.lower path) ".docx" then clear_docx_metadata path
     else if Str.endswith (Str.lower path) ".pdf" then clear_pdf_metadata path
     else raise (ValueError "Formato não suportado")) in
  ret (showinfo "Sucesso" "Metadados removidos com sucesso!").

(** [CurriculumApp._clear_metadata] once the file dialog has returned
    [path]; no file chosen, no dialog. *)
Definition _clear_metadata (path : string) : IO (option dialog) :=
  match path with
  | "" => ret None
  | _ =>
      try_except
        (let! shown := _clear_metadata_try path in ret (Some shown))
        (fun exc =>
           ret (Some (showerror "Erro"
                        ("Não foi possível limpar os metadados: " +:+ exn_msg exc))))
  end.

(** The [try] block of [CurriculumApp._read_metadata] and of
    [CurriculumApp._load_for_edit]. *)
Definition _read_metadata_try (path : string) : IO (list (string * string)) :=
  if Str.endswith (Str.lower path) ".docx" then read_docx_metadata path
  else if Str.endswith (Str.lower path) ".pdf" then read_pdf_metadata path
  else raise (ValueError "Formato não suportado").

(** The [try] block of [CurriculumApp._save_metadata]. *)
Definition _save_metadata_try (editing_path title creator description category : string)
    : IO dialog :=
  let! _ :=
    (if Str.endswith (Str.lower editing_path) ".docx"
     then write_docx_metadata editing_path title creator description category
     else if Str.endswith (Str.lower editing_path) ".pdf"
     then write_pdf_metadata editing_path title creator description category
     else raise (ValueError "Formato não suportado")) in
  ret (showinfo "Sucesso" "Metadados atualizados!").

End Program.

(** ** Reference definitions, following the words of the specification *)

(** [replacements.get(name)]. *)
Fixpoint dict_get (replacements : dict) (name : string) : option string :=
  match replacements with
  | [] => None
  | (key, value) :: rest =>
      if String.eqb key name then Some value else dict_get rest name
  end.

(** "Every occurrence of [{{name}}] for each name present in the map is
    replaced by the map's value; unmatched placeholders are left verbatim":
    one scan of the original text, in which every placeholder token whose
    name is a key gives way to the key's value and every other character is
    copied. *)
Fixpoint substitute_from (replacements : dict) (skip : nat) (s : string) : string :=
  match s with
  | "" => ""
  | String c s' =>
      match skip with
      | S k => substitute_from replacements k s'
      | O =>
          match Pattern.match_here s with
          | Some name =>
              match dict_get replacements name with
              | Some value =>
                  value +:+ substitute_from replacements (String.length name + 3) s'
              | None => String c (substitute_from replacements 0 s')
              end
          | None => String c (substitute_from replacements 0 s')
          end
      end
  end.

Definition substitute_all (replacements : dict) (s : string) : string :=
  substitute_from replacements 0 s.

(** "One pass of literal substring substitution per key" that does "not
    re-scan already-substituted output": the characters a pass inserts are
    marked, and no later occurrence may contain a marked character. *)
Definition marked : Type := list (ascii * bool).

Definition mark (inserted : bool) (s : string) : marked :=
  (fun c => (c, inserted)) <$> list_ascii_of_string s.

Definition unmark (t : marked) : string :=
  string_of_list_ascii (fst <$> t).

(** [old] stands at the head of [t], in characters of the original. *)
Fixpoint original_prefix (old : list ascii) (t : marked) : bool :=
  match old, t with
  | [], _ => true
  | a :: old', (c, false) :: t' => Ascii.eqb a c && original_prefix old' t'
  | _, _ => false
  end.

Fixpoint guarded_pass (old : list ascii) (new : string) (skip : nat) (t : marked) : marked :=
  match t with
  | [] => []
  | x :: t' =>
      match skip with
      | S k => guarded_pass old new k t'
      | O =>
          if original_prefix old t
          then mark true new ++ guarded_pass old new (List.length old - 1) t'
          else x :: guarded_pass old new 0 t'
      end
  end.

Definition new_text_without_rescan (replacements : dict) (original_text : string) : string :=
  unmark
    (foldl (fun t kv => guarded_pass (list_ascii_of_string (placeholder kv.1)) kv.2 0 t)
           (mark false original_text) replacements).

(** "Every regex match across every scanned location". *)
Definition matches_in (els : list Paragraph) (ps : list nat) : list string :=
  i ← ps;
  match els !! i with
  | Some paragraph => Pattern.findall (paragraph_text paragraph)
  | None => []
  end.

Definition all_matches (d : Document) : list string :=
  matches_in (store d) (traversal d).

(** The information dictionary a PDF "stores as absent" for empty fields:
    only the non-empty ones get an entry. *)
Definition info_of_record (title creator description category : string)
    : gmap string string :=
  list_to_map
    (omap (fun kv => (fun v => (kv.1, v)) <$> Str.or_None kv.2)
       [("/Title", title); ("/Author", creator);
        ("/Subject", description); ("/Category", category)]).

(** The taxonomy of section 7 of the specification. *)
Definition taxonomy : list string :=
  ["DocumentReadError"; "DocumentWriteError"; "MetadataWriteError";
   "UnsupportedFormatError"].

(** ** Texts whose braces only delimit placeholders *)

Definition is_brace (c : ascii) : bool :=
  Ascii.eqb c "{" || Ascii.eqb c "}".

Fixpoint brace_free (s : string) : bool :=
  match s with
  | "" => true
  | String c s' => negb (is_brace c) && brace_free s'
  end.

(** An entry of the map without braces in its key and in its value. *)
Definition entry_ok (kv : string * string) : Prop :=
  brace_free kv.1 = true ∧ brace_free kv.2 = true.

(** Every brace of [s] belongs to a placeholder token. *)
Fixpoint placeholder_braces_from (skip : nat) (s : string) : bool :=
  match s with
  | "" => true
  | String c s' =>
      match skip with
      | S k => placeholder_braces_from k s'
      | O =>
          match Pattern.match_here s with
          | Some name => placeholder_braces_from (String.length name + 3) s'
          | None => negb (is_brace c) && placeholder_braces_from 0 s'
          end
      end
  end.

Definition placeholder_braces_only (s : string) : bool :=
  placeholder_braces_from 0 s.

(** Such a text is a sequence of brace-free characters and tokens. *)
Inductive chunk :=
  | Lit (c : ascii)
  | Tok (name : string).

Definition render_chunk (ch : chunk) : string :=
  match ch with
  | Lit c => String c ""
  | Tok name => placeholder name
  end.

Definition render (cs : list chunk) : string :=
  foldr (fun ch acc => render_chunk ch +:+ acc) "" cs.

Fixpoint lits (s : string) : list chunk :=
  match s with
  | "" => []
  | String c s' => Lit c :: lits s'
  end.

Fixpoint all_word (s : string) : bool :=
  match s with
  | "" => true
  | String c s' => Pattern.is_word c && all_word s'
  end.

(** A name the pattern can capture. *)
Definition is_name (s : string) : bool :=
  match s with
  | "" => false
  | _ => all_word s
  end.

Definition chunk_ok (ch : chunk) : bool :=
  match ch with
  | Lit c => negb (is_brace c)
  | Tok name => is_name name
  end.

(** One key's replacement, and the whole map's, on chunks. *)
Definition replace_chunk (key value : string) (ch : chunk) : list chunk :=
  match ch with
  | Tok name => if String.eqb key name then lits value else [ch]
  | Lit _ => [ch]
  end.

Definition substitute_chunk (replacements : dict) (ch : chunk) : list chunk :=
  match ch with
  | Tok name =>
      match dict_get replacements name with
      | Some value => lits value
      | None => [ch]
      end
  | Lit _ => [ch]
  end.

(** ** Both formats at once *)

Inductive format := Docx | Pdf.

Definition write_metadata (E : env) (fmt : format)
    : string → string → string → string → string → IO unit :=
  match fmt with
  | Docx => write_docx_metadata E
  | Pdf => write_pdf_metadata E
  end.

Definition clear_metadata (E : env) (fmt : format) : string → IO unit :=
  match fmt with
  | Docx => clear_docx_metadata E
  | Pdf => clear_pdf_metadata E
  end.

Definition read_metadata (E : env) (fmt : format) : string → IO (list (string * string)) :=
  match fmt with
  | Docx => read_docx_metadata E
  | Pdf => read_pdf_metadata E
  end.

(** The suffix of the temporary file, and the library calls that open the
    source and that render the new file. *)
Definition suffix (fmt : format) : string :=
  match fmt with Docx => ".docx" | Pdf => ".pdf" end.

Definition open_call (fmt : format) : lib_call :=
  match fmt with Docx => Document_open | Pdf => PdfReader_open end.

Definition render_call (fmt : format) : lib_call :=
  match fmt with Docx => Document_save | Pdf => PdfWriter_write end.

(** The path holds a document of the format. *)
Definition has_format (fmt : format) (f : option file) : bool :=
  match fmt, f with
  | Docx, Some (DocxFile _) => true
  | Pdf, Some (PdfFile _) => true
  | _, _ => false
  end.

(** A step before the final [shutil.move] fails: the source cannot be
    read, the temporary file cannot be made, or rendering into it fails. *)
Definition fails_before_move (E : env) (fmt : format) (path : string)
    (fs : gmap string file) : Prop :=
  fault E (open_call fmt) ≠ None
  ∨ has_format fmt (fs !! path) = false
  ∨ fault E NamedTemporaryFile ≠ None
  ∨ fault E (render_call fmt) ≠ None.

(** No library call fails for a reason of its own. *)
Definition no_faults (E : env) : Prop := ∀ call, fault E call = None.

(** An exception the program did not make: a library call raised it. *)
Definition raised_by_library (E : env) (e : exn) : Prop :=
  (∃ call path, e = open_error E call path)
  ∨ (∃ call f, fault E call = Some f ∧ e = raised f).

(** The path has one of the two extensions the handlers know. *)
Definition supported (path : string) : bool :=
  Str.endswith (Str.lower path) ".docx" || Str.endswith (Str.lower path) ".pdf".

(** ** Sample data *)

Definition plain (text : string) : Paragraph :=
  {| runs := [{| run_text := text; run_rPr := None |}] |}.

(** A letter: two body paragraphs, the first in two runs, a table of one
    cell, and a header. *)
Definition letter : Document :=
  {| store :=
       [ {| runs := [ {| run_text := "Dear {{NAME}}, "; run_rPr := Some "<w:b/>" |};
                      {| run_text := "welcome to {{CITY}}."; run_rPr := None |} ] |};
         plain "Your role: {{ROLE}}";
         plain "{{NAME}}";
         plain "Page header" ];
     paragraphs := [0; 1];
     tables := [[[[2]]]];
     sections := [{| header := [3]; footer := [] |}];
     core_properties :=
       {| title := Some "Letter"; author := None;
          comments := Some "A letter to fill in"; category := None |} |}.

Definition ana : dict := [("NAME", "Ana"); ("CITY", "Lisbon")].

Definition scan : PdfDocument :=
  {| pages := ["page 1"; "page 2"];
     metadata := Some {[ "/Producer" := "Scanner"; "/Keywords" := "cv" ]} |}.

(** An environment in which no library call fails. *)
Definition quiet : env :=
  {| temp_name := fun _ suffix => "/tmp/tmp0" +:+ suffix;
     open_error := fun _ path => Exception "FileNotFoundError" path;
     fault := fun _ => None;
     fresh_info := {[ "/Producer" := "PyPDF2" ]} |}.

(** An environment in which rendering fails and leaves half a file. *)
Definition disk_full : env :=
  {| temp_name := fun _ suffix => "/tmp/tmp0" +:+ suffix;
     open_error := fun _ path => Exception "FileNotFoundError" path;
     fault := fun call =>
       match call with
       | Document_save | PdfWriter_write =>
           Some {| raised := Exception "OSError" "No space left on device";
                   debris := Some "PK" |}
       | _ => None
       end;
     fresh_info := {[ "/Producer" := "PyPDF2" ]} |}.

Definition disk : gmap string file :=
  {[ "cv.docx" := DocxFile letter; "cv.pdf" := PdfFile scan ]}.

(** ** Notions of the statements *)

(** The information dictionary [write_pdf_metadata] attaches. *)
Definition written_info (E : env) (title creator description category : string)
    : gmap string string :=
  <["/Category" := category]>
    (<["/Subject" := description]>
       (<["/Author" := creator]> (<["/Title" := title]> (fresh_info E)))).

(** Every exception of a computation was raised by a library call. *)
Definition library_errors {A} (E : env) (m : IO A) : Prop :=
  ∀ fs e fs', m fs = (inl e, fs') → raised_by_library E e.

(** A paragraph that has changed consists of one run with its text. *)
Definition collapsed_or_kept (p p' : Paragraph) : Prop :=
  paragraph_text p' ≠ paragraph_text p → runs p' = [add_run (paragraph_text p')].

(** How often a traversal visits a position. *)
Definition visits (i : nat) (ps : list nat) : nat :=
  List.length (filter (eq i) ps).

(** ** The forms

    The handlers of [CurriculumApp], each as a function of what the dialogs
    it opens return: the path chosen, the answer to a question. Of the
    application only what a handler reads back is kept, the attributes
    [template_path], [placeholder_entries], [editing_path] and
    [edit_entries] (an entry widget by its content) and the text of
    [metadata_text]; labels are written and never read, and are left out.
    The message box a handler shows is its result. *)

(** [d[key] = value] on a [dict]: an existing key keeps its place. *)
Fixpoint dict_set (d : dict) (key value : string) : dict :=
  match d with
  | [] => [(key, value)]
  | (k, v) :: rest =>
      if String.eqb k key then (k, value) :: rest
      else (k, v) :: dict_set rest key value
  end.

(** [{k: v for k, v in items}]. *)
Definition dict_of (items : list (string * string)) : dict :=
  foldl (fun d kv => dict_set d kv.1 kv.2) [] items.

Inductive messagebox :=
  | showwarning (caption message : string)
  | box (shown : dialog).

Record template_tab := {
  template_path : option string;
  placeholder_entries : dict
}.

Record edit_tab := {
  editing_path : option string;
  edit_entries : dict
}.

(** [_build_edit_tab]: the four entries, empty, and no file. *)
Definition _build_edit_tab : edit_tab :=
  {| editing_path := None;
     edit_entries := dict_of [("title", ""); ("creator", ""); ("description", "");
                              ("category", "")] |}.

(** [f"{key}: {value}\n"] for the items of [data], as inserted at the end
    of the emptied text widget. *)
Definition metadata_lines (data : list (string * string)) : string :=
  foldr (fun kv acc => kv.1 +:+ ": " +:+ kv.2 +:+ String "010" "" +:+ acc) "" data.

Section Forms.

Variable E : env.

(** [CurriculumApp._load_template], [path] being what the file dialog
    returns. *)
Definition _load_template (path : string) (self : template_tab)
    : IO (template_tab * option dialog) :=
  match path with
  | "" => ret (self, None)
  | _ =>
      let! scanned :=
        try_except
          (let! placeholders := extract_placeholders E path in ret (inr placeholders))
          (fun exc =>
             ret (inl (showerror "Erro"
                         ("Não foi possível ler o arquivo: " +:+ exn_msg exc)))) in
      match scanned with
      | inl shown => ret (self, Some shown)
      | inr placeholders =>
          ret ({| template_path := Some path;
                  placeholder_entries :=
                    foldl (fun entries placeholder => dict_set entries placeholder "")
                          [] placeholders |},
               None)
      end
  end.

(** [CurriculumApp._generate_document]; [yes] is the answer to the question
    about empty fields and [save_path] what the save dialog returns, each
    used only if the dialog is reached. *)
Definition _generate_document (self : template_tab) (yes : bool) (save_path : string)
    : IO (option messagebox) :=
  match template_path self with
  | None | Some "" =>
      ret (Some (showwarning "Atenção" "Selecione um modelo primeiro."))
  | Some template =>
      let replacements := dict_of (placeholder_entries self) in
      let missing := filter (fun kv => kv.2 = "") replacements in
      if bool_decide (missing ≠ []) && negb yes then ret None
      else
        match save_path with
        | "" => ret None
        | _ =>
            try_except
              (let! _ := replace_placeholders E template replacements save_path in
               ret (Some (box (showinfo "Sucesso" ("Currículo salvo em " +:+ save_path)))))
              (fun exc =>
                 ret (Some (box (showerror "Erro"
                                   ("Não foi possível gerar o currículo: "
                                    +:+ exn_msg exc)))))
        end
  end.

(** [CurriculumApp._read_metadata] on the text of [metadata_text]. *)
Definition _read_metadata (path : string) (metadata_text : string)
    : IO (string * option dialog) :=
  match path with
  | "" => ret (metadata_text, None)
  | _ =>
      try_except
        (let! data := _read_metadata_try E path in ret (metadata_lines data, None))
        (fun exc =>
           ret (metadata_text,
                Some (showerror "Erro"
                        ("Não foi possível ler os metadados: " +:+ exn_msg exc))))
  end.

(** [CurriculumApp._load_for_edit]. *)
Definition _load_for_edit (path : string) (self : edit_tab)
    : IO (edit_tab * option dialog) :=
  match path with
  | "" => ret (self, None)
  | _ =>
      let! loaded :=
        try_except
          (let! metadata := _read_metadata_try E path in ret (inr metadata))
          (fun exc =>
             ret (inl (showerror "Erro"
                         ("Não foi possível carregar os metadados: " +:+ exn_msg exc)))) in
      match loaded with
      | inl shown => ret (self, Some shown)
      | inr metadata =>
          let mapping :=
            dict_of [("title", default "" (dict_get metadata "DC:TITLE"));
                     ("creator", default "" (dict_get metadata "DC:CREATOR"));
                     ("description", default "" (dict_get metadata "CP:DESCRIPTION"));
                     ("category", default "" (dict_get metadata "CP:CATEGORY"))] in
          ret ({| editing_path := Some path;
                  edit_entries :=
                    (fun kv => (kv.1, default "" (dict_get mapping kv.1)))
                      <$> edit_entries self |},
               None)
      end
  end.

(** [self.edit_entries[key].get()]: a missing key raises. *)
Definition entry_get (entries : dict) (key : string) : IO string :=
  match dict_get entries key with
  | Some content => ret content
  | None => raise (Exception "KeyError" key)
  end.

(** [CurriculumApp._save_metadata]. *)
Definition _save_metadata (self : edit_tab) : IO messagebox :=
  match editing_path self with
  | None | Some "" =>
      ret (showwarning "Atenção" "Selecione um arquivo primeiro.")
  | Some path =>
      let! title := entry_get (edit_entries self) "title" in
      let! creator := entry_get (edit_entries self) "creator" in
      let! description := entry_get (edit_entries self) "description" in
      let! category := entry_get (edit_entries self) "category" in
      try_except
        (let! shown := _save_metadata_try E path title creator description category in
         ret (box shown))
        (fun exc =>
           ret (box (showerror "Erro"
                       ("Não foi possível salvar os metadados: " +:+ exn_msg exc))))
  end.

End Forms.

(** ** Further notions of the statements *)

(** The names of the tokens of a sequence of chunks. *)
Definition tokens (cs : list chunk) : list string :=
  cs ≫= fun ch => match ch with Tok name => [name] | Lit _ => [] end.

(** A metadata edit: a write of four fields, or a clear. *)
Inductive edit :=
  | Write (title creator description category : string)
  | Clear.

Definition run_edit (E : env) (fmt : format) (e : edit) (path : string) : IO unit :=
  match e with
  | Write title creator description category =>
      write_metadata E fmt path title creator description category
  | Clear => clear_metadata E fmt path
  end.

(** The file an edit leaves at the target when nothing fails. *)
Definition edited (E : env) (e : edit) (f : file) : file :=
  match f, e with
  | DocxFile doc, Write title creator description category =>
      DocxFile (set_core_properties doc title creator description category)
  | DocxFile doc, Clear => DocxFile (set_core_properties doc "" "" "" "")
  | PdfFile pdf, Write title creator description category =>
      PdfFile {| pages := pages pdf;
                 metadata := Some (written_info E title creator description category) |}
  | PdfFile pdf, Clear =>
      PdfFile {| pages := pages pdf; metadata := Some (fresh_info E) |}
  | OtherFile _, _ => f
  end.

(** The four keys of the information dictionary. *)
Definition info_keys : list string := ["/Title"; "/Author"; "/Subject"; "/Category"].

(** Every paragraph the traversal visits has braces only around
    placeholders. *)
Definition template_ok (d : Document) : bool :=
  forallb (fun i =>
             match store d !! i with
             | Some p => placeholder_braces_only (paragraph_text p)
             | None => true
             end) (traversal d).

(** No key of the map has its token in a paragraph the traversal visits. *)
Definition untouched_by (replacements : dict) (d : Document) : bool :=
  forallb (fun i =>
             match store d !! i with
             | Some p =>
                 forallb (fun kv =>
                            negb (Str.contains (paragraph_text p) (placeholder kv.1)))
                         replacements
             | None => true
             end) (traversal d).

(** A value for each of the three fields of the letter. *)
Definition filled : dict := [("CITY", "Lisbon"); ("NAME", "Ana"); ("ROLE", "Engineer")].

(** * Properties *)

#[local] Set Warnings "-clear-no-such-hyp".

(** ** Strings *)

Lemma sapp_cons c s t : String c s +:+ t = String c (s +:+ t).
Proof. reflexivity. Qed.

Lemma sapp_nil_r s : s +:+ "" = s.
Proof. induction s as [|c s IH]; [done|]. by rewrite sapp_cons, IH. Qed.

Lemma sapp_assoc s t u : (s +:+ t) +:+ u = s +:+ t +:+ u.
Proof. induction s as [|c s IH]; [done|]. by rewrite !sapp_cons, IH. Qed.

Lemma prefix_app old s : String.prefix old (old +:+ s) = true.
Proof.
  induction old as [|c old IH]; [by destruct s|].
  rewrite sapp_cons. simpl. by destruct (ascii_dec c c).
Qed.

Lemma prefix_head c d old s :
  c ≠ d → String.prefix (String c old) (String d s) = false.
Proof. intros Hne. simpl. by destruct (ascii_dec c d). Qed.

Lemma placeholder_cons key :
  placeholder key = String "{" (String "{" (key +:+ "}}")).
Proof. reflexivity. Qed.

(** *** [str.replace] *)

Lemma replace_from_skip old new a s :
  Str.replace_from old new (String.length a) (a +:+ s) = Str.replace_from old new 0 s.
Proof.
  induction a as [|c a IH]; [done|].
  rewrite sapp_cons. exact IH.
Qed.

Lemma replace_from_match c old new s :
  Str.replace_from (String c old) new 0 (String c old +:+ s)
  = new +:+ Str.replace_from (String c old) new 0 s.
Proof.
  rewrite sapp_cons.
  change (Str.replace_from (String c old) new 0 (String c (old +:+ s)))
    with (if String.prefix (String c old) (String c (old +:+ s))
          then new +:+ Str.replace_from (String c old) new
                         (String.length (String c old) - 1) (old +:+ s)
          else String c (Str.replace_from (String c old) new 0 (old +:+ s))).
  rewrite <- sapp_cons, prefix_app. simpl String.length.
  replace (S (String.length old) - 1) with (String.length old) by lia.
  by rewrite replace_from_skip.
Qed.

Lemma replace_from_step c s old new :
  String.prefix old (String c s) = false →
  Str.replace_from old new 0 (String c s) = String c (Str.replace_from old new 0 s).
Proof. intros H. simpl. simpl in H. by rewrite H. Qed.

Lemma replace_placeholder s key value :
  Str.replace s (placeholder key) value = Str.replace_from (placeholder key) value 0 s.
Proof. reflexivity. Qed.

(** An occurrence at the head is replaced and the scan goes on behind it:
    the inserted value is not read again by this pass. *)
Lemma replace_head key value rest :
  Str.replace (placeholder key +:+ rest) (placeholder key) value
  = value +:+ Str.replace rest (placeholder key) value.
Proof. rewrite !replace_placeholder, placeholder_cons. apply replace_from_match. Qed.

Lemma replace_self key value :
  Str.replace (placeholder key) (placeholder key) value = value.
Proof.
  rewrite <- (sapp_nil_r (placeholder key)) at 1.
  rewrite replace_head. apply sapp_nil_r.
Qed.

(** Where [old] does not occur, nothing is replaced. *)
Lemma replace_from_absent old new s :
  Str.contains s old = false → Str.replace_from old new 0 s = s.
Proof.
  induction s as [|c s IH]; [done|].
  intros H. cbn [Str.contains] in H.
  destruct (String.prefix old (String c s)) eqn:Hp; [done|].
  rewrite replace_from_step by done. by rewrite IH.
Qed.

Lemma replace_absent s key value :
  Str.contains s (placeholder key) = false → Str.replace s (placeholder key) value = s.
Proof. rewrite replace_placeholder. apply replace_from_absent. Qed.

(** *** The text of a paragraph after [replace_in_paragraphs] *)

Lemma new_text_nil text : new_text [] text = text.
Proof. reflexivity. Qed.

Lemma new_text_cons key value rest text :
  new_text ((key, value) :: rest) text
  = new_text rest (Str.replace text (placeholder key) value).
Proof. reflexivity. Qed.

Lemma new_text_snoc replacements key value text :
  new_text (replacements ++ [(key, value)]) text
  = Str.replace (new_text replacements text) (placeholder key) value.
Proof. unfold new_text. by rewrite foldl_snoc. Qed.

Lemma new_text_absent replacements text :
  Forall (fun kv => Str.contains text (placeholder kv.1) = false) replacements →
  new_text replacements text = text.
Proof.
  induction 1 as [|[key value] rest Hkv _ IH]; [done|].
  rewrite new_text_cons, replace_absent by done. apply IH.
Qed.

(** *** Paragraphs in the store *)

Lemma paragraph_text_single text :
  paragraph_text {| runs := [add_run text] |} = text.
Proof. unfold paragraph_text. simpl. apply sapp_nil_r. Qed.

Lemma replace_in_paragraph_changed replacements p :
  new_text replacements (paragraph_text p) ≠ paragraph_text p →
  replace_in_paragraph replacements p
  = {| runs := [add_run (new_text replacements (paragraph_text p))] |}.
Proof.
  intros Hne. unfold replace_in_paragraph.
  by destruct (String.eqb_spec (new_text replacements (paragraph_text p)) (paragraph_text p)).
Qed.

Lemma replace_in_paragraph_unchanged replacements p :
  new_text replacements (paragraph_text p) = paragraph_text p →
  replace_in_paragraph replacements p = p.
Proof. intros Heq. unfold replace_in_paragraph. by rewrite Heq, String.eqb_refl. Qed.

Lemma replace_in_paragraph_text replacements p :
  paragraph_text (replace_in_paragraph replacements p)
  = new_text replacements (paragraph_text p).
Proof.
  destruct (decide (new_text replacements (paragraph_text p) = paragraph_text p)) as [Heq|Hne].
  - by rewrite replace_in_paragraph_unchanged.
  - by rewrite replace_in_paragraph_changed, paragraph_text_single.
Qed.

Lemma replace_in_paragraph_iter_collapsed replacements p n :
  collapsed_or_kept p (Nat.iter n (replace_in_paragraph replacements) p).
Proof.
  induction n as [|n IH]; [by intros ?|].
  simpl. set (q := Nat.iter n (replace_in_paragraph replacements) p) in *.
  destruct (decide (new_text replacements (paragraph_text q) = paragraph_text q)) as [Heq|Hne].
  - by rewrite replace_in_paragraph_unchanged.
  - intros _. by rewrite replace_in_paragraph_changed, paragraph_text_single.
Qed.

Lemma replace_in_paragraph_iter_absent replacements p n :
  Forall (fun kv => Str.contains (paragraph_text p) (placeholder kv.1) = false) replacements →
  Nat.iter n (replace_in_paragraph replacements) p = p.
Proof.
  intros Habs. induction n as [|n IH]; [done|].
  simpl. rewrite IH. apply replace_in_paragraph_unchanged. by apply new_text_absent.
Qed.

Lemma visits_cons_eq i ps : visits i (i :: ps) = S (visits i ps).
Proof. unfold visits. by rewrite filter_cons_True. Qed.

Lemma visits_cons_ne i j ps : i ≠ j → visits i (j :: ps) = visits i ps.
Proof. intros Hne. unfold visits. by rewrite filter_cons_False. Qed.

Lemma visits_app i ps qs : visits i (ps ++ qs) = visits i ps + visits i qs.
Proof. unfold visits. by rewrite filter_app, length_app. Qed.

Lemma replace_in_paragraphs_cons replacements j ps els :
  replace_in_paragraphs replacements (j :: ps) els
  = replace_in_paragraphs replacements ps
      match els !! j with
      | Some paragraph => <[j := replace_in_paragraph replacements paragraph]> els
      | None => els
      end.
Proof. reflexivity. Qed.

(** What [replace_in_paragraphs] leaves at a position: the loop body, as
    often as the position is visited. *)
Lemma replace_in_paragraphs_lookup replacements ps els i :
  replace_in_paragraphs replacements ps els !! i
  = Nat.iter (visits i ps) (replace_in_paragraph replacements) <$> els !! i.
Proof.
  revert els. induction ps as [|j ps IH]; intros els.
  - simpl. by destruct (els !! i).
  - rewrite replace_in_paragraphs_cons, IH. destruct (decide (i = j)) as [->|Hne].
    + rewrite visits_cons_eq.
      destruct (els !! j) as [p|] eqn:Hj; [|by rewrite Hj].
      rewrite list_lookup_insert_eq by (by eapply lookup_lt_Some).
      change (Some (Nat.iter (visits j ps) (replace_in_paragraph replacements)
                      (replace_in_paragraph replacements p))
              = Some (Nat.iter (S (visits j ps)) (replace_in_paragraph replacements) p)).
      by rewrite Nat.iter_succ_r.
    + rewrite visits_cons_ne by done.
      destruct (els !! j) as [p|] eqn:Hj; [|done].
      by rewrite list_lookup_insert_ne.
Qed.

Lemma replace_in_paragraphs_app replacements ps qs els :
  replace_in_paragraphs replacements (ps ++ qs) els
  = replace_in_paragraphs replacements qs (replace_in_paragraphs replacements ps els).
Proof. unfold replace_in_paragraphs. by rewrite foldl_app. Qed.

Lemma replace_in_row replacements (row : Row) els :
  foldl (fun els cell => replace_in_paragraphs replacements cell els) els row
  = replace_in_paragraphs replacements (cell ← row; cell) els.
Proof.
  revert els. induction row as [|cell row IH]; intros els; [done|].
  simpl. by rewrite IH, replace_in_paragraphs_app.
Qed.

Lemma replace_in_table replacements (t : Table) els :
  foldl (fun els row =>
           foldl (fun els cell => replace_in_paragraphs replacements cell els) els row)
        els t
  = replace_in_paragraphs replacements (table_paragraphs t) els.
Proof.
  revert els. induction t as [|row t IH]; intros els; [done|].
  simpl. rewrite IH, replace_in_row. unfold table_paragraphs. simpl.
  by rewrite replace_in_paragraphs_app.
Qed.

Lemma replace_in_tables replacements (ts : list Table) els :
  foldl (fun els table =>
           foldl (fun els row =>
                    foldl (fun els cell => replace_in_paragraphs replacements cell els)
                          els row) els table) els ts
  = replace_in_paragraphs replacements (ts ≫= table_paragraphs) els.
Proof.
  revert els. induction ts as [|t ts IH]; intros els; [done|].
  simpl. by rewrite IH, replace_in_table, replace_in_paragraphs_app.
Qed.

Lemma replace_in_sections replacements (ss : list Section) els :
  foldl (fun els section =>
           replace_in_paragraphs replacements (footer section)
             (replace_in_paragraphs replacements (header section) els)) els ss
  = replace_in_paragraphs replacements (ss ≫= section_paragraphs) els.
Proof.
  revert els. induction ss as [|s ss IH]; intros els; [done|].
  simpl. rewrite IH. unfold section_paragraphs at 2.
  by rewrite !replace_in_paragraphs_app.
Qed.

(** The substitutor is the loop body along the traversal. *)
Lemma replace_placeholders_of_store replacements d :
  store (replace_placeholders_of replacements d)
  = replace_in_paragraphs replacements (traversal d) (store d).
Proof.
  unfold replace_placeholders_of, traversal. simpl.
  by rewrite replace_in_tables, replace_in_sections, !replace_in_paragraphs_app.
Qed.

(** ** Texts whose braces only delimit placeholders *)

Lemma is_word_not_brace c : Pattern.is_word c = true → is_brace c = false.
Proof. by destruct c as [[] [] [] [] [] [] [] []]. Qed.

Lemma not_brace_open c : is_brace c = false → c ≠ "{"%char.
Proof. intros H ->. done. Qed.

Lemma not_brace_close c : is_brace c = false → c ≠ "}"%char.
Proof. intros H ->. done. Qed.

Lemma brace_free_cons c s :
  brace_free (String c s) = true ↔ is_brace c = false ∧ brace_free s = true.
Proof.
  simpl. rewrite andb_true_iff, negb_true_iff. done.
Qed.

Lemma all_word_brace_free s : all_word s = true → brace_free s = true.
Proof.
  induction s as [|c s IH]; [done|].
  simpl. intros [Hc Hs]%andb_true_iff.
  by rewrite (is_word_not_brace c Hc), IH.
Qed.

Lemma is_name_all_word s : is_name s = true → all_word s = true.
Proof. by destruct s. Qed.

Lemma is_name_brace_free s : is_name s = true → brace_free s = true.
Proof. intros H. by apply all_word_brace_free, is_name_all_word. Qed.

Lemma prefix_cons a b s t :
  String.prefix (String a s) (String b t) = true ↔ a = b ∧ String.prefix s t = true.
Proof.
  simpl. destruct (ascii_dec a b) as [->|Hne]; [tauto|].
  split; [done|]. by intros [? _].
Qed.

Lemma close_app r : "}}" +:+ r = String "}" (String "}" r).
Proof. reflexivity. Qed.

Lemma token_app name r :
  placeholder name +:+ r = String "{" (String "{" (name +:+ "}}" +:+ r)).
Proof. by rewrite placeholder_cons, !sapp_cons, sapp_assoc. Qed.

(** Two tokens with brace-free names agree at the head only if the names
    are the same. *)
Lemma prefix_token_eq key name r :
  brace_free key = true → brace_free name = true →
  String.prefix (key +:+ "}}") (name +:+ "}}" +:+ r) = true → key = name.
Proof.
  revert name. induction key as [|a key IH]; intros [|b name] Hk Hn Hp.
  - done.
  - apply brace_free_cons in Hn as [Hb _].
    change ("" +:+ "}}") with (String "}" "}") in Hp.
    rewrite sapp_cons in Hp. apply prefix_cons in Hp as [<- _]. done.
  - apply brace_free_cons in Hk as [Ha _].
    change ("" +:+ "}}" +:+ r) with (String "}" (String "}" r)) in Hp.
    rewrite sapp_cons in Hp. apply prefix_cons in Hp as [-> _]. done.
  - apply brace_free_cons in Hk as [_ Hk]. apply brace_free_cons in Hn as [_ Hn].
    rewrite !sapp_cons in Hp. apply prefix_cons in Hp as [-> Hp].
    f_equal. by apply IH.
Qed.

Lemma prefix_placeholder key name r :
  brace_free key = true → brace_free name = true → key ≠ name →
  String.prefix (placeholder key) (placeholder name +:+ r) = false.
Proof.
  intros Hk Hn Hne. apply not_true_is_false. intros Hp. apply Hne.
  rewrite !placeholder_cons, !sapp_cons, sapp_assoc in Hp.
  apply prefix_cons in Hp as [_ Hp]. apply prefix_cons in Hp as [_ Hp].
  by eapply prefix_token_eq.
Qed.

(** What follows the opening braces of a token does not start with one. *)
Lemma token_tail_head name r :
  brace_free name = true →
  ∃ c s, name +:+ "}}" +:+ r = String c s ∧ c ≠ "{"%char.
Proof.
  destruct name as [|b name]; intros Hn.
  - by exists "}"%char, (String "}" r).
  - apply brace_free_cons in Hn as [Hb _].
    exists b, (name +:+ "}}" +:+ r). split; [done|]. by apply not_brace_open.
Qed.

(** *** [str.replace] on literals and tokens *)

Lemma replace_from_lit key value c s :
  c ≠ "{"%char →
  Str.replace_from (placeholder key) value 0 (String c s)
  = String c (Str.replace_from (placeholder key) value 0 s).
Proof.
  intros Hc. apply replace_from_step. rewrite placeholder_cons.
  by apply prefix_head.
Qed.

Lemma replace_from_brace_free key value a s :
  brace_free a = true →
  Str.replace_from (placeholder key) value 0 (a +:+ s)
  = a +:+ Str.replace_from (placeholder key) value 0 s.
Proof.
  induction a as [|c a IH]; [done|].
  intros [Hc Ha]%brace_free_cons. rewrite !sapp_cons.
  rewrite replace_from_lit by (by apply not_brace_open). by rewrite IH.
Qed.

Lemma replace_from_other_token key value name r :
  brace_free key = true → brace_free name = true → key ≠ name →
  Str.replace_from (placeholder key) value 0 (placeholder name +:+ r)
  = placeholder name +:+ Str.replace_from (placeholder key) value 0 r.
Proof.
  intros Hk Hn Hne.
  pose proof (prefix_placeholder key name r Hk Hn Hne) as Hp.
  rewrite !token_app in *.
  rewrite replace_from_step by done. f_equal.
  destruct (token_tail_head name r Hn) as (c & s & Hcs & Hc).
  rewrite replace_from_step.
  2:{ rewrite Hcs, placeholder_cons. apply not_true_is_false.
      intros [_ [? _]%prefix_cons]%prefix_cons. done. }
  f_equal. rewrite replace_from_brace_free by done. reflexivity.
Qed.

(** *** Chunks *)

Local Arguments render : simpl never.

Lemma render_cons ch cs : render (ch :: cs) = render_chunk ch +:+ render cs.
Proof. reflexivity. Qed.

Lemma render_app cs ds : render (cs ++ ds) = render cs +:+ render ds.
Proof.
  induction cs as [|ch cs IH]; [done|].
  simpl. by rewrite !render_cons, IH, sapp_assoc.
Qed.

Lemma render_lits s : render (lits s) = s.
Proof.
  induction s as [|c s IH]; [done|].
  simpl. by rewrite render_cons, IH.
Qed.

Lemma lits_ok s : brace_free s = true → Forall (fun ch => chunk_ok ch = true) (lits s).
Proof.
  induction s as [|c s IH]; [constructor|].
  intros [Hc Hs]%brace_free_cons. constructor; [|by apply IH].
  simpl. by rewrite Hc.
Qed.

Lemma replace_chunk_ok key value cs :
  brace_free value = true →
  Forall (fun ch => chunk_ok ch = true) cs →
  Forall (fun ch => chunk_ok ch = true) (cs ≫= replace_chunk key value).
Proof.
  intros Hv. induction 1 as [|ch cs Hch _ IH]; [constructor|].
  rewrite bind_cons. apply Forall_app. split; [|done].
  destruct ch as [c|name]; simpl; [by constructor|].
  destruct (String.eqb key name); [by apply lits_ok|by constructor].
Qed.

(** One pass of [str.replace] replaces the tokens of its key and nothing
    else. *)
Lemma replace_render key value cs :
  brace_free key = true →
  Forall (fun ch => chunk_ok ch = true) cs →
  Str.replace (render cs) (placeholder key) value
  = render (cs ≫= replace_chunk key value).
Proof.
  intros Hk. rewrite replace_placeholder.
  induction 1 as [|ch cs Hch _ IH]; [done|].
  rewrite bind_cons, render_cons, render_app, <- IH.
  destruct ch as [c|name].
  - change (Str.replace_from (placeholder key) value 0 (String c (render cs))
            = String c (Str.replace_from (placeholder key) value 0 (render cs))).
    apply negb_true_iff in Hch. apply replace_from_lit. by apply not_brace_open.
  - change (Str.replace_from (placeholder key) value 0 (placeholder name +:+ render cs)
            = render (if String.eqb key name then lits value else [Tok name])
              +:+ Str.replace_from (placeholder key) value 0 (render cs)).
    destruct (String.eqb_spec key name) as [->|Hne].
    + rewrite render_lits, placeholder_cons. apply replace_from_match.
    + change (render [Tok name]) with (placeholder name +:+ "").
      rewrite sapp_nil_r.
      apply replace_from_other_token; [done| |done]. by apply is_name_brace_free.
Qed.

Lemma new_text_render replacements cs :
  Forall entry_ok replacements →
  Forall (fun ch => chunk_ok ch = true) cs →
  new_text replacements (render cs)
  = render (foldl (fun cs kv => cs ≫= replace_chunk kv.1 kv.2) cs replacements).
Proof.
  intros Hm. revert cs. induction Hm as [|[key value] rest [Hk Hv] _ IH]; intros cs Hcs.
  - done.
  - rewrite new_text_cons, replace_render by done. cbn [foldl fst snd].
    apply IH. by apply replace_chunk_ok.
Qed.

Lemma substitute_chunk_lits replacements s :
  lits s ≫= substitute_chunk replacements = lits s.
Proof.
  induction s as [|c s IH]; [done|].
  change (lits (String c s)) with (Lit c :: lits s). by rewrite bind_cons, IH.
Qed.

(** The passes in the map's order come to one look-up per token. *)
Lemma passes_substitute replacements cs :
  foldl (fun cs kv => cs ≫= replace_chunk kv.1 kv.2) cs replacements
  = cs ≫= substitute_chunk replacements.
Proof.
  revert cs. induction replacements as [|[key value] rest IH]; intros cs.
  - simpl. induction cs as [|[c|name] cs IHcs]; [done|..];
      by rewrite bind_cons, <- IHcs.
  - simpl. rewrite IH. clear IH.
    induction cs as [|ch cs IHcs]; [done|].
    rewrite !bind_cons, bind_app, IHcs. f_equal.
    destruct ch as [c|name]; simpl; [done|].
    destruct (String.eqb key name).
    + apply substitute_chunk_lits.
    + rewrite bind_cons. apply app_nil_r.
Qed.

Lemma substitute_chunk_ok replacements cs :
  Forall entry_ok replacements →
  Forall (fun ch => chunk_ok ch = true) cs →
  Forall (fun ch => chunk_ok ch = true) (cs ≫= substitute_chunk replacements).
Proof.
  intros Hm. rewrite <- passes_substitute. revert cs.
  induction Hm as [|[key value] rest [Hk Hv] _ IH]; intros cs Hcs; [done|].
  simpl. apply IH. by apply replace_chunk_ok.
Qed.

Lemma substitute_chunk_idem replacements cs :
  (cs ≫= substitute_chunk replacements) ≫= substitute_chunk replacements
  = cs ≫= substitute_chunk replacements.
Proof.
  induction cs as [|ch cs IH]; [done|].
  rewrite !bind_cons, bind_app, IH. f_equal.
  destruct ch as [c|name]; simpl; [done|].
  destruct (dict_get replacements name) as [value|] eqn:Hget.
  - apply substitute_chunk_lits.
  - rewrite bind_cons. simpl. by rewrite Hget.
Qed.

(** *** The pattern on literals and tokens *)

Lemma match_here_lit c s : c ≠ "{"%char → Pattern.match_here (String c s) = None.
Proof. by destruct c as [[] [] [] [] [] [] [] []]. Qed.

Lemma match_here_lit2 d s :
  d ≠ "{"%char → Pattern.match_here (String "{" (String d s)) = None.
Proof. by destruct d as [[] [] [] [] [] [] [] []]. Qed.

Lemma match_here_open s :
  Pattern.match_here (String "{" (String "{" s))
  = match Pattern.word_run s with
    | "" => None
    | name =>
        if String.prefix "}}" (Pattern.drop (String.length name) s)
        then Some name else None
    end.
Proof. reflexivity. Qed.

Lemma drop_app a s : Pattern.drop (String.length a) (a +:+ s) = s.
Proof. induction a as [|c a IH]; [by destruct s|]. by rewrite sapp_cons. Qed.

Lemma drop_nil n : Pattern.drop n "" = "".
Proof. by destruct n. Qed.

Lemma length_sapp a s : String.length (a +:+ s) = String.length a + String.length s.
Proof. induction a as [|c a IH]; [done|]. rewrite sapp_cons. simpl. by rewrite IH. Qed.

Lemma word_run_token name r :
  all_word name = true → Pattern.word_run (name +:+ "}}" +:+ r) = name.
Proof.
  induction name as [|c name IH]; [done|].
  cbn [all_word]. intros [Hc Hn]%andb_true_iff.
  rewrite sapp_cons. cbn [Pattern.word_run]. by rewrite Hc, IH.
Qed.

Lemma word_run_spec s :
  all_word (Pattern.word_run s) = true
  ∧ s = Pattern.word_run s +:+ Pattern.drop (String.length (Pattern.word_run s)) s.
Proof.
  induction s as [|c s [IH1 IH2]]; [done|].
  simpl. destruct (Pattern.is_word c) eqn:Hc; [|done].
  simpl. rewrite Hc, IH1. split; [done|]. by rewrite sapp_cons, <- IH2.
Qed.

Lemma prefix_close s :
  String.prefix "}}" s = true → s = "}}" +:+ Pattern.drop 2 s.
Proof.
  destruct s as [|a [|b s]]; try done.
  - by intros [_ ?]%prefix_cons.
  - intros [<- [<- _]%prefix_cons]%prefix_cons. done.
Qed.

Lemma match_here_token name r :
  is_name name = true → Pattern.match_here (placeholder name +:+ r) = Some name.
Proof.
  intros Hn. rewrite token_app, match_here_open.
  rewrite word_run_token by (by apply is_name_all_word).
  destruct name as [|c name]; [done|].
  cbv zeta. by rewrite drop_app, prefix_app.
Qed.

Lemma drop_drop n m s : Pattern.drop n (Pattern.drop m s) = Pattern.drop (m + n) s.
Proof.
  revert s. induction m as [|m IH]; intros s; [done|].
  destruct s as [|c s]; [by rewrite !drop_nil|]. apply IH.
Qed.

(** A match at the head of [s] is a token with a name, and [s] goes on
    behind it. *)
Lemma match_here_Some c s name :
  Pattern.match_here (String c s) = Some name →
  is_name name = true
  ∧ String c s = placeholder name +:+ Pattern.drop (String.length name + 3) s.
Proof.
  intros H.
  destruct (decide (c = "{"%char)) as [->|Hc]; [|by rewrite match_here_lit in H].
  destruct s as [|d s]; [done|].
  destruct (decide (d = "{"%char)) as [->|Hd]; [|by rewrite match_here_lit2 in H].
  rewrite match_here_open in H.
  destruct (word_run_spec s) as [Hw Hs].
  destruct (Pattern.word_run s) as [|a w] eqn:Hrun; [done|].
  cbv zeta in H.
  destruct (String.prefix "}}" (Pattern.drop (String.length (String a w)) s)) eqn:Hp;
    [|done].
  injection H as <-. split; [done|].
  apply prefix_close in Hp. rewrite drop_drop in Hp.
  rewrite token_app. do 2 f_equal.
  replace (String.length (String a w) + 3) with (S (String.length (String a w) + 2))
    by lia.
  cbn [Pattern.drop]. by rewrite <- Hp.
Qed.

(** *** The reference substitution on literals and tokens *)

Lemma substitute_from_step replacements c s :
  substitute_from replacements 0 (String c s)
  = match Pattern.match_here (String c s) with
    | Some name =>
        match dict_get replacements name with
        | Some value =>
            value +:+ substitute_from replacements (String.length name + 3) s
        | None => String c (substitute_from replacements 0 s)
        end
    | None => String c (substitute_from replacements 0 s)
    end.
Proof. reflexivity. Qed.

Lemma substitute_from_skip replacements a s :
  substitute_from replacements (String.length a) (a +:+ s)
  = substitute_from replacements 0 s.
Proof.
  induction a as [|c a IH]; [done|].
  rewrite sapp_cons. exact IH.
Qed.

Lemma substitute_from_lit replacements c s :
  c ≠ "{"%char →
  substitute_from replacements 0 (String c s)
  = String c (substitute_from replacements 0 s).
Proof. intros Hc. by rewrite substitute_from_step, match_here_lit. Qed.

Lemma substitute_from_brace_free replacements a s :
  brace_free a = true →
  substitute_from replacements 0 (a +:+ s) = a +:+ substitute_from replacements 0 s.
Proof.
  induction a as [|c a IH]; [done|].
  intros [Hc Ha]%brace_free_cons. rewrite !sapp_cons.
  rewrite substitute_from_lit by (by apply not_brace_open). by rewrite IH.
Qed.

Lemma substitute_from_token replacements name r :
  is_name name = true →
  substitute_from replacements 0 (placeholder name +:+ r)
  = render (substitute_chunk replacements (Tok name))
    +:+ substitute_from replacements 0 r.
Proof.
  intros Hn. pose proof (match_here_token name r Hn) as Hm.
  pose proof (is_name_brace_free name Hn) as Hb.
  rewrite token_app in *. rewrite substitute_from_step, Hm.
  unfold substitute_chunk. destruct (dict_get replacements name) as [value|].
  - rewrite render_lits. f_equal.
    replace (String.length name + 3)
      with (String.length (String "{" (name +:+ "}}"))).
    + rewrite <- (substitute_from_skip replacements (String "{" (name +:+ "}}")) r).
      by rewrite (sapp_cons _ (name +:+ "}}")), sapp_assoc.
    + simpl. rewrite length_sapp. simpl. lia.
  - change (render [Tok name]) with (placeholder name +:+ "").
    rewrite sapp_nil_r, token_app. f_equal.
    destruct (token_tail_head name r Hb) as (c & s & Hcs & Hc).
    rewrite substitute_from_step, Hcs, match_here_lit2, <- Hcs by done.
    f_equal. rewrite substitute_from_brace_free by done. reflexivity.
Qed.

(** The reference substitution replaces the tokens of the keys and nothing
    else. *)
Lemma substitute_render replacements cs :
  Forall (fun ch => chunk_ok ch = true) cs →
  substitute_all replacements (render cs)
  = render (cs ≫= substitute_chunk replacements).
Proof.
  unfold substitute_all.
  induction 1 as [|ch cs Hch _ IH]; [done|].
  rewrite bind_cons, render_cons, render_app, <- IH.
  destruct ch as [c|name].
  - change (substitute_from replacements 0 (String c (render cs))
            = String c (substitute_from replacements 0 (render cs))).
    apply negb_true_iff in Hch. apply substitute_from_lit. by apply not_brace_open.
  - by apply substitute_from_token.
Qed.

Lemma placeholder_braces_step c s :
  placeholder_braces_from 0 (String c s)
  = match Pattern.match_here (String c s) with
    | Some name => placeholder_braces_from (String.length name + 3) s
    | None => negb (is_brace c) && placeholder_braces_from 0 s
    end.
Proof. reflexivity. Qed.

(** A text whose braces only delimit placeholders is a sequence of
    brace-free characters and tokens. *)
Lemma placeholder_braces_chunks skip s :
  placeholder_braces_from skip s = true →
  ∃ cs, Forall (fun ch => chunk_ok ch = true) cs ∧ render cs = Pattern.drop skip s.
Proof.
  revert skip. induction s as [|c s IH]; intros skip H.
  - exists []. by rewrite drop_nil.
  - destruct skip as [|k]; [|by apply (IH k)].
    rewrite placeholder_braces_step in H.
    destruct (Pattern.match_here (String c s)) as [name|] eqn:Hm.
    + apply IH in H as (cs & Hcs & Hr).
      apply match_here_Some in Hm as [Hn Hs].
      exists (Tok name :: cs). split; [by constructor|].
      rewrite render_cons, Hr. symmetry. exact Hs.
    + apply andb_true_iff in H as [Hc H].
      apply (IH 0) in H as (cs & Hcs & Hr).
      exists (Lit c :: cs). split; [by constructor|].
      rewrite render_cons, Hr. done.
Qed.

Lemma placeholder_braces_only_chunks text :
  placeholder_braces_only text = true →
  ∃ cs, Forall (fun ch => chunk_ok ch = true) cs ∧ render cs = text.
Proof. intros H. by apply (placeholder_braces_chunks 0). Qed.

(** *** The passes of the substitutor against the reference substitution *)

Lemma new_text_substitute replacements text :
  Forall entry_ok replacements →
  placeholder_braces_only text = true →
  new_text replacements text = substitute_all replacements text.
Proof.
  intros Hm (cs & Hcs & <-)%placeholder_braces_only_chunks.
  by rewrite new_text_render, passes_substitute, substitute_render.
Qed.

Lemma new_text_idem replacements text :
  Forall entry_ok replacements →
  placeholder_braces_only text = true →
  new_text replacements (new_text replacements text) = new_text replacements text.
Proof.
  intros Hm (cs & Hcs & <-)%placeholder_braces_only_chunks.
  rewrite new_text_render, passes_substitute by done.
  rewrite new_text_render, passes_substitute by (by try apply substitute_chunk_ok).
  by rewrite substitute_chunk_idem.
Qed.

Lemma replace_in_paragraph_iter_text replacements p n :
  paragraph_text (Nat.iter n (replace_in_paragraph replacements) p)
  = Nat.iter n (new_text replacements) (paragraph_text p).
Proof.
  induction n as [|n IH]; [done|].
  simpl. by rewrite replace_in_paragraph_text, IH.
Qed.

Lemma iter_idem {A} (g : A → A) (x : A) n :
  g (g x) = g x → Nat.iter (S n) g x = g x.
Proof.
  intros Hg. induction n as [|n IH]; [done|].
  change (g (Nat.iter (S n) g x) = g x). by rewrite IH.
Qed.

Lemma visits_pos i ps : i ∈ ps → 0 < visits i ps.
Proof.
  intros Hi. unfold visits.
  assert (i ∈ filter (eq i) ps) as Hf by (by apply list_elem_of_filter).
  destruct (filter (eq i) ps); [by apply not_elem_of_nil in Hf|simpl; lia].
Qed.

(** ** The claims about the substitutor *)

(** C1, as the code has it. The substitutor makes one pass of literal
    substring substitution per key, in the map's order, and each pass works
    on the output of the pass before: the text after the entries
    [replacements ++ [(key, value)]] is [str.replace] applied to the text
    after [replacements]. Within one key's pass the inserted value is not
    read again, the scan goes on behind the occurrence. But what a key has
    inserted is scanned by the passes of all later keys: a paragraph that
    is the token of the first key ends up as the first value with the
    remaining entries substituted in it. *)
Theorem passes_in_map_order :
  ∀ (replacements : dict) (key value text rest : string),
    new_text (replacements ++ [(key, value)]) text
    = Str.replace (new_text replacements text) (placeholder key) value
    ∧ Str.replace (placeholder key +:+ rest) (placeholder key) value
      = value +:+ Str.replace rest (placeholder key) value
    ∧ new_text ((key, value) :: replacements) (placeholder key)
      = new_text replacements value.
Proof.
  intros replacements key value text rest. split; [|split].
  - apply new_text_snoc.
  - apply replace_head.
  - by rewrite new_text_cons, replace_self.
Qed.

(** C1 as stated fails: with the map [{"A": "{{B}}", "B": "x"}] the value
    inserted for [A] is substituted by the pass of [B], where passes that
    never read substituted output would leave it. *)
Lemma inserted_value_is_rescanned :
  new_text [("A", "{{B}}"); ("B", "x")] "{{A}} and {{B}}" = "x and x"
  ∧ new_text_without_rescan [("A", "{{B}}"); ("B", "x")] "{{A}} and {{B}}"
    = "{{B}} and x"
  ∧ new_text [("A", "{{B}}"); ("B", "x")] "{{A}} and {{B}}"
    ≠ new_text_without_rescan [("A", "{{B}}"); ("B", "x")] "{{A}} and {{B}}".
Proof. by vm_compute. Qed.

(** C8. After [replace_placeholders] a paragraph of the document is the
    original one with the loop body applied once per visit. If its text has
    changed, its runs are a single new run carrying its text, whatever runs
    it had; if no key of the map has its token in the text, the paragraph is
    the original one, runs and run properties included. For one visit the
    text is the fully substituted text [new_text]. *)
Theorem changed_paragraph_collapses_to_one_run :
  ∀ (replacements : dict) (d : Document) (i : nat) (p : Paragraph),
    store d !! i = Some p →
    ∃ p',
      store (replace_placeholders_of replacements d) !! i = Some p'
      ∧ p' = Nat.iter (visits i (traversal d)) (replace_in_paragraph replacements) p
      ∧ (paragraph_text p' ≠ paragraph_text p →
         runs p' = [{| run_text := paragraph_text p'; run_rPr := None |}])
      ∧ (Forall (fun kv => Str.contains (paragraph_text p) (placeholder kv.1) = false)
                replacements →
         p' = p)
      ∧ (visits i (traversal d) = 1 →
         paragraph_text p' = new_text replacements (paragraph_text p)).
Proof.
  intros replacements d i p Hp.
  exists (Nat.iter (visits i (traversal d)) (replace_in_paragraph replacements) p).
  split; [|split; [done|split; [|split]]].
  - by rewrite replace_placeholders_of_store, replace_in_paragraphs_lookup, Hp.
  - apply replace_in_paragraph_iter_collapsed.
  - apply replace_in_paragraph_iter_absent.
  - intros ->. apply replace_in_paragraph_text.
Qed.

(** C6, as the code has it. For a map whose keys and values contain no
    brace, every visited paragraph whose braces only delimit placeholder
    tokens has, after [replace_placeholders], the original text with every
    token of a key replaced by the key's value and everything else, the
    tokens of other names included, left as it was. *)
Theorem substitution_of_mapped_placeholders :
  ∀ (replacements : dict) (d : Document) (i : nat) (p : Paragraph),
    Forall entry_ok replacements →
    i ∈ traversal d →
    store d !! i = Some p →
    placeholder_braces_only (paragraph_text p) = true →
    ∃ p',
      store (replace_placeholders_of replacements d) !! i = Some p'
      ∧ paragraph_text p' = substitute_all replacements (paragraph_text p).
Proof.
  intros replacements d i p Hm Hi Hp Hb.
  eexists. split.
  - by rewrite replace_placeholders_of_store, replace_in_paragraphs_lookup, Hp.
  - rewrite replace_in_paragraph_iter_text.
    apply visits_pos in Hi. destruct (visits i (traversal d)) as [|n]; [lia|].
    rewrite iter_idem by (by apply new_text_idem).
    by apply new_text_substitute.
Qed.

(** C6 as stated fails: a value that is itself a token of a later key is
    substituted again, so the paragraph is not the original text with each
    token replaced by its value. *)
Lemma value_with_placeholder_is_expanded :
  new_text [("CITY", "{{NAME}}"); ("NAME", "Ana")]
           "Dear {{NAME}}, welcome to {{CITY}}."
  = "Dear Ana, welcome to Ana."
  ∧ substitute_all [("CITY", "{{NAME}}"); ("NAME", "Ana")]
                   "Dear {{NAME}}, welcome to {{CITY}}."
    = "Dear Ana, welcome to {{NAME}}."
  ∧ new_text [("CITY", "{{NAME}}"); ("NAME", "Ana")]
             "Dear {{NAME}}, welcome to {{CITY}}."
    ≠ substitute_all [("CITY", "{{NAME}}"); ("NAME", "Ana")]
                     "Dear {{NAME}}, welcome to {{CITY}}.".
Proof. by vm_compute. Qed.

(** ** The scanner *)

Lemma found_add_all (names : list string) (found : gset string) :
  foldl (fun found name => {[name]} ∪ found) found names
  = list_to_set names ∪ found.
Proof.
  revert found. induction names as [|name names IH]; intros found; simpl.
  - set_solver.
  - rewrite IH. set_solver.
Qed.

Lemma matches_in_app els ps qs :
  matches_in els (ps ++ qs) = matches_in els ps ++ matches_in els qs.
Proof. apply bind_app. Qed.

Lemma collect_from_paragraphs_found els ps found :
  collect_from_paragraphs els ps found = list_to_set (matches_in els ps) ∪ found.
Proof.
  revert found. induction ps as [|i ps IH]; intros found.
  - set_solver.
  - change (collect_from_paragraphs els (i :: ps) found)
      with (collect_from_paragraphs els ps
              match els !! i with
              | Some paragraph =>
                  foldl (fun found name => {[name]} ∪ found) found
                        (Pattern.findall (paragraph_text paragraph))
              | None => found
              end).
    rewrite IH. unfold matches_in. rewrite bind_cons.
    destruct (els !! i) as [p|].
    + rewrite found_add_all, list_to_set_app_L. set_solver.
    + set_solver.
Qed.

Lemma collect_from_row els (row : Row) found :
  foldl (fun found cell => collect_from_paragraphs els cell found) found row
  = list_to_set (matches_in els (cell ← row; cell)) ∪ found.
Proof.
  revert found. induction row as [|cell row IH]; intros found.
  - set_solver.
  - rewrite bind_cons. cbn [foldl].
    rewrite IH, collect_from_paragraphs_found, matches_in_app, list_to_set_app_L.
    set_solver.
Qed.

Lemma collect_from_table els (t : Table) found :
  foldl (fun found row =>
           foldl (fun found cell => collect_from_paragraphs els cell found) found row)
        found t
  = list_to_set (matches_in els (table_paragraphs t)) ∪ found.
Proof.
  revert found. induction t as [|row t IH]; intros found.
  - set_solver.
  - unfold table_paragraphs. rewrite bind_cons. cbn [foldl].
    fold (table_paragraphs t).
    rewrite IH, collect_from_row, matches_in_app, list_to_set_app_L. set_solver.
Qed.

Lemma collect_from_tables els (ts : list Table) found :
  foldl (fun found table =>
           foldl (fun found row =>
                    foldl (fun found cell => collect_from_paragraphs els cell found)
                          found row) found table) found ts
  = list_to_set (matches_in els (ts ≫= table_paragraphs)) ∪ found.
Proof.
  revert found. induction ts as [|t ts IH]; intros found.
  - set_solver.
  - rewrite bind_cons. cbn [foldl].
    rewrite IH, collect_from_table, matches_in_app, list_to_set_app_L. set_solver.
Qed.

Lemma collect_from_sections els (ss : list Section) found :
  foldl (fun found section =>
           collect_from_paragraphs els (footer section)
             (collect_from_paragraphs els (header section) found)) found ss
  = list_to_set (matches_in els (ss ≫= section_paragraphs)) ∪ found.
Proof.
  revert found. induction ss as [|s ss IH]; intros found.
  - set_solver.
  - rewrite bind_cons. cbn [foldl].
    rewrite IH, !collect_from_paragraphs_found.
    unfold section_paragraphs at 1.
    rewrite !matches_in_app, !list_to_set_app_L. set_solver.
Qed.

(** The set the scanner sorts holds the matches of the whole traversal. *)
Lemma extract_placeholders_of_found d :
  extract_placeholders_of d = sorted (list_to_set (all_matches d)).
Proof.
  unfold extract_placeholders_of, all_matches, traversal. f_equal.
  rewrite collect_from_sections, collect_from_tables, collect_from_paragraphs_found.
  rewrite !matches_in_app, !list_to_set_app_L. set_solver.
Qed.

(** [sorted] of a set is the sorted list of its elements, each once. *)
Lemma sorted_list_to_set (names : list string) :
  sorted (list_to_set names) = merge_sort String.le (remove_dups names).
Proof.
  unfold sorted. apply (Sorted_unique String.le).
  - apply Sorted_merge_sort, _.
  - apply Sorted_merge_sort, _.
  - rewrite !merge_sort_Permutation. apply NoDup_Permutation.
    + apply NoDup_elements.
    + apply NoDup_remove_dups.
    + intros name.
      by rewrite elem_of_elements, elem_of_list_to_set, elem_of_remove_dups.
Qed.

Lemma Document_readable E path fs d :
  fault E Document_open = None →
  fs !! path = Some (DocxFile d) →
  Document_ E path fs = (inr d, fs).
Proof. intros Hf Hp. unfold Document_. by rewrite Hf, Hp. Qed.

(** C5. For a template that can be read, [extract_placeholders] returns the
    names the pattern captures in the text of the paragraphs of the body,
    of the table cells and of the headers and footers of the sections,
    deduplicated and sorted in the order of strings, and leaves the files
    alone: the list is sorted, has every name once, has exactly the names
    matched somewhere, and is empty when nothing matches. *)
Theorem scanner_returns_sorted_distinct_names :
  ∀ (E : env) (docx_path : string) (fs : gmap string file) (d : Document),
    fault E Document_open = None →
    fs !! docx_path = Some (DocxFile d) →
    ∃ names,
      extract_placeholders E docx_path fs = (inr names, fs)
      ∧ names = merge_sort String.le (remove_dups (all_matches d))
      ∧ Sorted String.le names
      ∧ NoDup names
      ∧ (∀ name, name ∈ names ↔ name ∈ all_matches d)
      ∧ (all_matches d = [] → names = []).
Proof.
  intros E docx_path fs d Hf Hp.
  exists (merge_sort String.le (remove_dups (all_matches d))).
  split; [|split; [done|split; [|split; [|split]]]].
  - unfold extract_placeholders, bind.
    rewrite (Document_readable E docx_path fs d Hf Hp).
    unfold ret. by rewrite extract_placeholders_of_found, sorted_list_to_set.
  - apply Sorted_merge_sort, _.
  - rewrite merge_sort_Permutation. apply NoDup_remove_dups.
  - intros name. by rewrite merge_sort_Permutation, elem_of_remove_dups.
  - by intros ->.
Qed.

(** ** The metadata accessor *)

Lemma temp_file_gone (fs : gmap string file) name (x y : file) :
  fs !! name = None → delete name (<[name := x]> (<[name := y]> fs)) = fs.
Proof. intros H. by rewrite !delete_insert_eq, delete_id. Qed.

Lemma PdfReader_readable E path fs pdf :
  fault E PdfReader_open = None →
  fs !! path = Some (PdfFile pdf) →
  PdfReader E path fs = (inr pdf, fs).
Proof. intros Hf Hp. unfold PdfReader. by rewrite Hf, Hp. Qed.

Lemma add_pages_pages writer reader :
  writer_pages (add_pages writer reader) = writer_pages writer ++ pages reader.
Proof.
  unfold add_pages. revert writer.
  induction (pages reader) as [|page rest IH]; intros writer; simpl.
  - by rewrite app_nil_r.
  - rewrite IH. simpl. by rewrite <- app_assoc.
Qed.

Lemma add_pages_info writer reader :
  writer_info (add_pages writer reader) = writer_info writer.
Proof.
  unfold add_pages. revert writer.
  induction (pages reader) as [|page rest IH]; intros writer; [done|].
  simpl. by rewrite IH.
Qed.

Lemma bind_inr {A B} (m : IO A) (k : A → IO B) fs a fs' :
  m fs = (inr a, fs') → bind m k fs = k a fs'.
Proof. intros H. unfold bind. by rewrite H. Qed.

Lemma bind_inl {A B} (m : IO A) (k : A → IO B) fs e fs' :
  m fs = (inl e, fs') → bind m k fs = (inl e, fs').
Proof. intros H. unfold bind. by rewrite H. Qed.

Lemma setattr_accepted E props name value fs :
  fault E CoreProperties_set = None →
  setattr E props name value fs = (inr (assign props name value), fs).
Proof. intros H. unfold setattr. rewrite H. by destruct (is_property name). Qed.

(** The five assignments of [write_docx_metadata] when the setters accept
    the values. *)
Lemma assignments_accepted {B} E doc title creator description category
    (k : CoreProperties → IO B) fs :
  fault E CoreProperties_set = None →
  (let! props := setattr E (core_properties doc) "title" (Str.or_None title) in
   let! props := setattr E props "author" (Str.or_None creator) in
   let! props := setattr E props "creator" (Str.or_None creator) in
   let! props := setattr E props "description" (Str.or_None description) in
   let! props := setattr E props "category" (Str.or_None category) in
   k props) fs
  = k (core_properties (set_core_properties doc title creator description category)) fs.
Proof.
  intros H.
  do 5 (erewrite bind_inr; [|by apply setattr_accepted]).
  reflexivity.
Qed.

(** The same when a setter refuses. *)
Lemma assignments_refused {B} E doc title creator description category
    (k : CoreProperties → IO B) fs f :
  fault E CoreProperties_set = Some f →
  (let! props := setattr E (core_properties doc) "title" (Str.or_None title) in
   let! props := setattr E props "author" (Str.or_None creator) in
   let! props := setattr E props "creator" (Str.or_None creator) in
   let! props := setattr E props "description" (Str.or_None description) in
   let! props := setattr E props "category" (Str.or_None category) in
   k props) fs
  = (inl (raised f), fs).
Proof.
  intros H. apply bind_inl. unfold setattr. by rewrite H.
Qed.

(** What the writers and clearers leave when nothing fails. *)
Lemma write_docx_metadata_done E path title creator description category fs doc :
  no_faults E →
  fs !! path = Some (DocxFile doc) →
  fs !! temp_name E fs ".docx" = None →
  write_docx_metadata E path title creator description category fs
  = (inr tt,
     <[path := DocxFile (set_core_properties doc title creator description category)]> fs).
Proof.
  intros HE Hp Ht. unfold write_docx_metadata.
  erewrite bind_inr; [|by apply Document_readable].
  rewrite assignments_accepted by apply HE.
  unfold bind, NamedTemporaryFile_, save, move.
  rewrite !HE, lookup_insert_eq. by rewrite temp_file_gone.
Qed.

Lemma write_pdf_metadata_done E path title creator description category fs pdf :
  no_faults E →
  fs !! path = Some (PdfFile pdf) →
  fs !! temp_name E fs ".pdf" = None →
  write_pdf_metadata E path title creator description category fs
  = (inr tt,
     <[path := PdfFile {| pages := pages pdf;
                          metadata :=
                            Some (written_info E title creator description category) |}]>
       fs).
Proof.
  intros HE Hp Ht.
  unfold write_pdf_metadata, bind, PdfReader, NamedTemporaryFile_, write, move.
  rewrite !HE, Hp, lookup_insert_eq. rewrite temp_file_gone by done.
  unfold written, add_metadata. simpl.
  by rewrite add_pages_pages, add_pages_info.
Qed.

Lemma clear_pdf_metadata_done E path fs pdf :
  no_faults E →
  fs !! path = Some (PdfFile pdf) →
  fs !! temp_name E fs ".pdf" = None →
  clear_pdf_metadata E path fs
  = (inr tt,
     <[path := PdfFile {| pages := pages pdf; metadata := Some (fresh_info E) |}]> fs).
Proof.
  intros HE Hp Ht.
  unfold clear_pdf_metadata, bind, PdfReader, NamedTemporaryFile_, write, move.
  rewrite !HE, Hp, lookup_insert_eq. rewrite temp_file_gone by done.
  unfold written. by rewrite add_pages_pages, add_pages_info.
Qed.

Lemma has_format_docx f :
  has_format Docx f = true → ∃ doc, f = Some (DocxFile doc).
Proof. destruct f as [[doc|pdf|content]|]; try done. by exists doc. Qed.

Lemma has_format_pdf f :
  has_format Pdf f = true → ∃ pdf, f = Some (PdfFile pdf).
Proof. destruct f as [[doc|pdf|content]|]; try done. by exists pdf. Qed.

Lemma or_empty_or_None s : Str.or_empty (Str.or_None s) = s.
Proof. by destruct s. Qed.

Lemma truthy_or_None s : Str.truthy (Str.or_None s) = true ∨ s = "".
Proof. destruct s; [by right|by left]. Qed.

Lemma written_info_lookup E title creator description category :
  written_info E title creator description category !! "/Title" = Some title
  ∧ written_info E title creator description category !! "/Author" = Some creator
  ∧ written_info E title creator description category !! "/Subject" = Some description
  ∧ written_info E title creator description category !! "/Category" = Some category.
Proof. unfold written_info. repeat split; by simplify_map_eq. Qed.

Lemma getattr_title props : getattr props "title" = ret (Str.or_empty (title props)).
Proof. reflexivity. Qed.

Lemma getattr_author props : getattr props "author" = ret (Str.or_empty (author props)).
Proof. reflexivity. Qed.

Lemma getattr_missing props name :
  is_property name = false → getattr props name = raise (AttributeError name).
Proof.
  unfold is_property, getattr. intros H.
  apply orb_false_iff in H as [H Hcategory].
  apply orb_false_iff in H as [H Hcomments].
  apply orb_false_iff in H as [Htitle Hauthor].
  by rewrite Htitle, Hauthor, Hcomments, Hcategory.
Qed.

Lemma truthy_or_empty x : Str.truthy (Some (Str.or_empty x)) = Str.truthy x.
Proof. by destruct x as [[|c s]|]. Qed.

Lemma truthy_str_or_None s : Str.truthy (Some (Str.str (Str.or_None s))) = true.
Proof. by destruct s. Qed.

(** [read_docx_metadata] on a document that can be opened: the class has
    neither [creator] nor [description], and the first of them the dict
    display reaches raises. *)
Lemma read_docx_metadata_raises E path fs doc :
  fault E Document_open = None →
  fs !! path = Some (DocxFile doc) →
  read_docx_metadata E path fs
  = (inl (AttributeError (if Str.truthy (author (core_properties doc))
                          then "description" else "creator")), fs).
Proof.
  intros Hf Hp. unfold read_docx_metadata.
  erewrite bind_inr; [|by apply Document_readable].
  rewrite getattr_title, getattr_author.
  erewrite bind_inr; [|reflexivity]. erewrite bind_inr; [|reflexivity].
  rewrite truthy_or_empty.
  destruct (Str.truthy (author (core_properties doc))).
  - erewrite bind_inr; [|reflexivity]. by apply bind_inl.
  - apply bind_inl. by apply bind_inl.
Qed.

Lemma read_pdf_after_write E path title creator description category
    (fs : gmap string file) pdf :
  fault E PdfReader_open = None →
  read_pdf_metadata E path
    (<[path := PdfFile {| pages := pages pdf;
                          metadata :=
                            Some (written_info E title creator description category) |}]>
       fs)
  = (inr (record title creator description category),
     <[path := PdfFile {| pages := pages pdf;
                          metadata :=
                            Some (written_info E title creator description category) |}]>
       fs).
Proof.
  intros HE. unfold read_pdf_metadata, bind.
  erewrite PdfReader_readable; [|apply HE|apply lookup_insert_eq].
  destruct (written_info_lookup E title creator description category)
    as (Ht' & Hc & Hd & Hg).
  unfold ret, info_get. cbn [metadata default]. unfold id.
  by rewrite Ht', Hc, Hd, Hg.
Qed.

(** C7, on the code. When no library call fails, writing the record and
    reading the metadata back gives the record for a PDF. For a
    word-processing document the write returns and the read raises
    [AttributeError]: [read_docx_metadata] asks the core properties for
    [description], which python-docx does not have, so the claim's round
    trip fails for that format at every record. *)
Theorem metadata_round_trip_fails_on_docx :
  ∀ (E : env) (fmt : format) (path title creator description category : string)
    (fs : gmap string file),
    no_faults E →
    has_format fmt (fs !! path) = true →
    fs !! temp_name E fs (suffix fmt) = None →
    ∃ fs',
      write_metadata E fmt path title creator description category fs = (inr tt, fs')
      ∧ read_metadata E fmt path fs'
        = match fmt with
          | Pdf => (inr [("DC:TITLE", title); ("DC:CREATOR", creator);
                         ("CP:DESCRIPTION", description); ("CP:CATEGORY", category)],
                    fs')
          | Docx => (inl (AttributeError "description"), fs')
          end.
Proof.
  intros E [|] path title creator description category fs HE Hfmt Ht.
  - apply has_format_docx in Hfmt as [doc Hp].
    eexists. split; [by apply write_docx_metadata_done|].
    unfold read_metadata.
    erewrite read_docx_metadata_raises; [|apply HE|apply lookup_insert_eq].
    change (author (core_properties
                      (set_core_properties doc title creator description category)))
      with (Some (Str.str (Str.or_None creator))).
    by rewrite truthy_str_or_None.
  - apply has_format_pdf in Hfmt as [pdf Hp].
    eexists. split; [by apply write_pdf_metadata_done|].
    apply read_pdf_after_write, HE.
Qed.

(** *** Failures before the final move *)

Lemma after_failure_other f name path (fs : gmap string file) :
  name ≠ path → after_failure f name fs !! path = fs !! path.
Proof.
  intros Hne. unfold after_failure.
  destruct (debris f); [by rewrite lookup_insert_ne|done].
Qed.

Lemma temp_is_not_target (fs : gmap string file) name path x :
  fs !! name = None → fs !! path = Some x → name ≠ path.
Proof. intros Hn Hp ->. congruence. Qed.

Lemma write_docx_metadata_fails E path title creator description category fs :
  fs !! temp_name E fs ".docx" = None →
  fails_before_move E Docx path fs →
  ∃ e fs',
    write_docx_metadata E path title creator description category fs = (inl e, fs')
    ∧ fs' !! path = fs !! path.
Proof.
  intros Ht Hfail. unfold write_docx_metadata.
  destruct (Document_ E path fs) as [[e|doc] fs0] eqn:Hdoc.
  { exists e, fs0. split; [by apply bind_inl|].
    assert (fs0 = fs) as ->; [|done].
    revert Hdoc. unfold Document_.
    destruct (fault E Document_open); [by intros [= _ <-]|].
    destruct (fs !! path) as [[doc|pdf|content]|]; by intros [= _ <-]. }
  assert (fs0 = fs ∧ fault E Document_open = None ∧ fs !! path = Some (DocxFile doc))
    as (-> & Hopen & Hp).
  { revert Hdoc. unfold Document_.
    destruct (fault E Document_open); [done|].
    destruct (fs !! path) as [[doc'|pdf|content]|]; try done. by intros [= <- <-]. }
  erewrite bind_inr; [|done].
  destruct (fault E CoreProperties_set) as [f|] eqn:Hset.
  { exists (raised f), fs. split; [|done]. by apply assignments_refused. }
  rewrite assignments_accepted by done.
  unfold bind, NamedTemporaryFile_, save, move.
  destruct (fault E NamedTemporaryFile) as [f|] eqn:Htmp; [by eauto|].
  pose proof (temp_is_not_target fs _ path _ Ht Hp) as Hne.
  destruct (fault E Document_save) as [f|] eqn:Hsave.
  - do 2 eexists. split; [done|].
    by rewrite after_failure_other, lookup_insert_ne.
  - exfalso. unfold fails_before_move in Hfail. simpl in Hfail.
    rewrite Hp in Hfail. naive_solver.
Qed.

Lemma write_pdf_metadata_fails E path title creator description category fs :
  fs !! temp_name E fs ".pdf" = None →
  fails_before_move E Pdf path fs →
  ∃ e fs',
    write_pdf_metadata E path title creator description category fs = (inl e, fs')
    ∧ fs' !! path = fs !! path.
Proof.
  intros Ht Hfail.
  unfold write_pdf_metadata, bind, PdfReader, NamedTemporaryFile_, write, move.
  destruct (fault E PdfReader_open) as [f|] eqn:Hopen; [by eauto|].
  destruct (fs !! path) as [[doc|pdf|content]|] eqn:Hp; [by eauto| |by eauto..].
  destruct (fault E NamedTemporaryFile) as [f|] eqn:Htmp; [by eauto|].
  pose proof (temp_is_not_target fs _ path _ Ht Hp) as Hne.
  destruct (fault E PdfWriter_write) as [f|] eqn:Hwrite.
  - do 2 eexists. split; [done|].
    by rewrite after_failure_other, lookup_insert_ne.
  - exfalso. unfold fails_before_move in Hfail. simpl in Hfail.
    rewrite Hp in Hfail. naive_solver.
Qed.

Lemma clear_pdf_metadata_fails E path fs :
  fs !! temp_name E fs ".pdf" = None →
  fails_before_move E Pdf path fs →
  ∃ e fs', clear_pdf_metadata E path fs = (inl e, fs') ∧ fs' !! path = fs !! path.
Proof.
  intros Ht Hfail.
  unfold clear_pdf_metadata, bind, PdfReader, NamedTemporaryFile_, write, move.
  destruct (fault E PdfReader_open) as [f|] eqn:Hopen; [by eauto|].
  destruct (fs !! path) as [[doc|pdf|content]|] eqn:Hp; [by eauto| |by eauto..].
  destruct (fault E NamedTemporaryFile) as [f|] eqn:Htmp; [by eauto|].
  pose proof (temp_is_not_target fs _ path _ Ht Hp) as Hne.
  destruct (fault E PdfWriter_write) as [f|] eqn:Hwrite.
  - do 2 eexists. split; [done|].
    by rewrite after_failure_other, lookup_insert_ne.
  - exfalso. unfold fails_before_move in Hfail. simpl in Hfail.
    rewrite Hp in Hfail. naive_solver.
Qed.

Lemma write_metadata_fails E fmt path title creator description category fs :
  fs !! temp_name E fs (suffix fmt) = None →
  fails_before_move E fmt path fs →
  ∃ e fs',
    write_metadata E fmt path title creator description category fs = (inl e, fs')
    ∧ fs' !! path = fs !! path.
Proof.
  destruct fmt; [apply write_docx_metadata_fails|apply write_pdf_metadata_fails].
Qed.

Lemma clear_metadata_fails E fmt path fs :
  fs !! temp_name E fs (suffix fmt) = None →
  fails_before_move E fmt path fs →
  ∃ e fs', clear_metadata E fmt path fs = (inl e, fs') ∧ fs' !! path = fs !! path.
Proof.
  destruct fmt; [apply write_docx_metadata_fails|apply clear_pdf_metadata_fails].
Qed.

(** C3. For a write or a clear on either format, with the temporary file
    a new file as [NamedTemporaryFile] makes it: if a step before the final
    move fails (the source cannot be read, the temporary file cannot be
    made, rendering into it fails), the operation raises and the file at
    the target path is what it was; and whenever the file at the target
    path is no longer what it was, no step before the move has failed. *)
Theorem failure_before_move_keeps_target :
  ∀ (E : env) (fmt : format) (path title creator description category : string)
    (fs : gmap string file),
    fs !! temp_name E fs (suffix fmt) = None →
    (fails_before_move E fmt path fs →
     (∃ e fs',
        write_metadata E fmt path title creator description category fs = (inl e, fs')
        ∧ fs' !! path = fs !! path)
     ∧ (∃ e fs',
          clear_metadata E fmt path fs = (inl e, fs') ∧ fs' !! path = fs !! path))
    ∧ (∀ r fs',
         write_metadata E fmt path title creator description category fs = (r, fs')
         ∨ clear_metadata E fmt path fs = (r, fs') →
         fs' !! path ≠ fs !! path →
         ¬ fails_before_move E fmt path fs).
Proof.
  intros E fmt path title creator description category fs Ht. split.
  - intros Hfail. split.
    + by apply write_metadata_fails.
    + by apply clear_metadata_fails.
  - intros r fs' [Hrun|Hrun] Hchanged Hfail.
    + destruct (write_metadata_fails E fmt path title creator description category
                  fs Ht Hfail) as (e & fs'' & Hrun' & Hsame).
      rewrite Hrun in Hrun'. by simplify_eq.
    + destruct (clear_metadata_fails E fmt path fs Ht Hfail)
        as (e & fs'' & Hrun' & Hsame).
      rewrite Hrun in Hrun'. by simplify_eq.
Qed.

(** *** The substitutor and the files *)

(** C9, as the code has it. When the destination is another path than the
    template, [replace_placeholders] leaves the template file as it was,
    whether it succeeds or fails; and when the template can be read and
    saving does not fail it returns with the produced document at the
    destination. *)
Theorem template_file_kept_when_destination_differs :
  ∀ (E : env) (docx_path : string) (replacements : dict) (output_path : string)
    (fs : gmap string file),
    output_path ≠ docx_path →
    ∃ r fs',
      replace_placeholders E docx_path replacements output_path fs = (r, fs')
      ∧ fs' !! docx_path = fs !! docx_path
      ∧ (∀ d,
           fault E Document_open = None →
           fs !! docx_path = Some (DocxFile d) →
           fault E Document_save = None →
           r = inr tt
           ∧ fs' !! output_path
             = Some (DocxFile (replace_placeholders_of replacements d))).
Proof.
  intros E docx_path replacements output_path fs Hne.
  unfold replace_placeholders, bind, Document_, save.
  destruct (fault E Document_open) as [f|] eqn:Hopen.
  { do 2 eexists. split; [done|]. split; [done|]. by intros. }
  destruct (fs !! docx_path) as [[doc|pdf|content]|] eqn:Hp.
  2-4: do 2 eexists; split; [done|]; split; [done|]; by intros.
  destruct (fault E Document_save) as [f|] eqn:Hsave.
  - do 2 eexists. split; [done|]. split; [|by intros].
    by rewrite after_failure_other.
  - do 2 eexists. split; [done|]. split; [by rewrite lookup_insert_ne|].
    intros d _ [= <-] _. by rewrite lookup_insert_eq.
Qed.

(** C9 as stated fails: with the template's own path as the destination
    the template file is overwritten by the filled document. *)
Lemma template_overwritten_when_destination_is_template :
  ∃ fs',
    replace_placeholders quiet "cv.docx" ana "cv.docx" disk = (inr tt, fs')
    ∧ fs' !! "cv.docx" = Some (DocxFile (replace_placeholders_of ana letter))
    ∧ fs' !! "cv.docx" ≠ disk !! "cv.docx".
Proof.
  exists (<["cv.docx" := DocxFile (replace_placeholders_of ana letter)]> disk).
  split; [by vm_compute|]. split; [by vm_compute|].
  vm_compute. intros H. discriminate H.
Qed.

(** *** What the writers store *)

Lemma written_info_other E title creator description category key :
  key ∉ ["/Title"; "/Author"; "/Subject"; "/Category"] →
  written_info E title creator description category !! key = fresh_info E !! key.
Proof.
  intros Hkey. unfold written_info.
  rewrite !lookup_insert_ne; [done|intros <-; apply Hkey; set_solver..].
Qed.

(** C10. After a PDF write or clear in which nothing fails, the file holds
    the pages of the original and an information dictionary made from that
    of a fresh [PdfWriter()] alone: on a write it gets the four keys
    [/Title], [/Author], [/Subject] and [/Category] and is otherwise the
    fresh writer's, on a clear it is the fresh writer's. No entry of the
    original's dictionary is carried over. *)
Theorem pdf_information_not_carried_over :
  ∀ (E : env) (path title creator description category : string)
    (fs : gmap string file) (pdf : PdfDocument),
    no_faults E →
    fs !! path = Some (PdfFile pdf) →
    fs !! temp_name E fs ".pdf" = None →
    ∃ info,
      write_pdf_metadata E path title creator description category fs
      = (inr tt, <[path := PdfFile {| pages := pages pdf; metadata := Some info |}]> fs)
      ∧ info !! "/Title" = Some title
      ∧ info !! "/Author" = Some creator
      ∧ info !! "/Subject" = Some description
      ∧ info !! "/Category" = Some category
      ∧ (∀ key, key ∉ ["/Title"; "/Author"; "/Subject"; "/Category"] →
                info !! key = fresh_info E !! key)
      ∧ clear_pdf_metadata E path fs
        = (inr tt,
           <[path := PdfFile {| pages := pages pdf; metadata := Some (fresh_info E) |}]>
             fs).
Proof.
  intros E path title creator description category fs pdf HE Hp Ht.
  exists (written_info E title creator description category).
  destruct (written_info_lookup E title creator description category)
    as (Ht' & Hc & Hd & Hg).
  repeat split; try done.
  - by apply write_pdf_metadata_done.
  - intros key. apply written_info_other.
  - by apply clear_pdf_metadata_done.
Qed.



(** ** Errors *)

Lemma library_errors_ret {A} E (a : A) : library_errors E (ret a).
Proof. by intros fs e fs' [=]. Qed.

Lemma library_errors_bind {A B} E (m : IO A) (k : A → IO B) :
  library_errors E m → (∀ a, library_errors E (k a)) → library_errors E (bind m k).
Proof.
  intros Hm Hk fs e fs'. unfold bind.
  destruct (m fs) as [[e1|a] fs1] eqn:Hrun.
  - intros [= <- <-]. by eapply Hm.
  - apply Hk.
Qed.

Lemma library_errors_open E path : library_errors E (Document_ E path).
Proof.
  intros fs e fs'. unfold Document_.
  destruct (fault E Document_open) as [f|] eqn:Hf.
  { intros [= <- <-]. right. eauto. }
  destruct (fs !! path) as [[doc|pdf|content]|]; intros [= <- <-]; left; eauto.
Qed.

Lemma library_errors_reader E path : library_errors E (PdfReader E path).
Proof.
  intros fs e fs'. unfold PdfReader.
  destruct (fault E PdfReader_open) as [f|] eqn:Hf.
  { intros [= <- <-]. right. eauto. }
  destruct (fs !! path) as [[doc|pdf|content]|]; intros [= <- <-]; left; eauto.
Qed.

Lemma library_errors_save E document path : library_errors E (save E document path).
Proof.
  intros fs e fs'. unfold save.
  destruct (fault E Document_save) as [f|] eqn:Hf; intros [= <- <-]. right. eauto.
Qed.

Lemma library_errors_write E writer name : library_errors E (write E writer name).
Proof.
  intros fs e fs'. unfold write.
  destruct (fault E PdfWriter_write) as [f|] eqn:Hf; intros [= <- <-]. right. eauto.
Qed.

Lemma library_errors_temp E sfx : library_errors E (NamedTemporaryFile_ E sfx).
Proof.
  intros fs e fs'. unfold NamedTemporaryFile_.
  destruct (fault E NamedTemporaryFile) as [f|] eqn:Hf; intros [= <- <-]. right. eauto.
Qed.

Lemma library_errors_move E src dst : library_errors E (move E src dst).
Proof.
  intros fs e fs'. unfold move.
  destruct (fault E shutil_move) as [f|] eqn:Hf.
  { intros [= <- <-]. right. eauto. }
  destruct (fs !! src); intros [= <- <-]. left. eauto.
Qed.

Lemma library_errors_setattr E props name value :
  library_errors E (setattr E props name value).
Proof.
  intros fs e fs'. unfold setattr.
  destruct (is_property name); [|by intros [=]].
  destruct (fault E CoreProperties_set) as [f|] eqn:Hf; intros [= <- <-]. right. eauto.
Qed.

Create HintDb library_errors.

#[local] Hint Resolve library_errors_ret library_errors_open library_errors_reader
  library_errors_save library_errors_write library_errors_temp library_errors_move
  library_errors_setattr : library_errors.

Ltac library_errors :=
  repeat (apply library_errors_bind; [|intros ?]); auto with library_errors.

Lemma library_errors_extract E path : library_errors E (extract_placeholders E path).
Proof. unfold extract_placeholders. library_errors. Qed.

Lemma library_errors_replace E path replacements output_path :
  library_errors E (replace_placeholders E path replacements output_path).
Proof. unfold replace_placeholders. library_errors. Qed.

Lemma library_errors_metadata E fmt path title creator description category :
  library_errors E (write_metadata E fmt path title creator description category)
  ∧ library_errors E (clear_metadata E fmt path)
  ∧ library_errors E (read_pdf_metadata E path).
Proof.
  destruct fmt; simpl;
    unfold clear_docx_metadata, write_docx_metadata,
      clear_pdf_metadata, write_pdf_metadata, read_pdf_metadata;
    repeat split; library_errors.
Qed.

(** An exception of [read_docx_metadata] is the library's, unless the
    document was opened. *)
Lemma read_docx_metadata_errors E path fs e fs' :
  read_docx_metadata E path fs = (inl e, fs') →
  raised_by_library E e ∨ ∃ document, Document_ E path fs = (inr document, fs).
Proof.
  unfold read_docx_metadata.
  destruct (Document_ E path fs) as [[e0|doc] fs0] eqn:Hdoc.
  - erewrite bind_inl by done. intros [= <- <-]. left.
    by apply (library_errors_open E path fs e0 fs0).
  - intros _. right. exists doc.
    revert Hdoc. unfold Document_.
    destruct (fault E Document_open); [done|].
    destruct (fs !! path) as [[doc'|pdf|content]|]; try done. by intros [= <- <-].
Qed.

Lemma supported_format path :
  supported path = true →
  ∃ fmt,
    (∀ E, _clear_metadata_try E path
          = bind (clear_metadata E fmt path)
                 (fun _ => ret (showinfo "Sucesso" "Metadados removidos com sucesso!")))
    ∧ (∀ E, _read_metadata_try E path = read_metadata E fmt path)
    ∧ (∀ E title creator description category,
         _save_metadata_try E path title creator description category
         = bind (write_metadata E fmt path title creator description category)
                (fun _ => ret (showinfo "Sucesso" "Metadados atualizados!")))
    ∧ (fmt = Docx → Str.endswith (Str.lower path) ".docx" = true).
Proof.
  unfold supported, _clear_metadata_try, _read_metadata_try, _save_metadata_try.
  destruct (Str.endswith (Str.lower path) ".docx") eqn:Hdocx.
  - intros _. by exists Docx.
  - destruct (Str.endswith (Str.lower path) ".pdf") eqn:Hpdf; [|done].
    intros _. by exists Pdf.
Qed.



(** * The properties on the sample data *)

Example replace_is_leftmost_first : Str.replace "aaa" "aa" "b" = "ba".
Proof. reflexivity. Qed.

Example replace_of_empty_string : Str.replace "abc" "" "-" = "-a-b-c-".
Proof. reflexivity. Qed.

Example replace_does_not_read_its_output :
  Str.replace "x{{A}}{{A}}" (placeholder "A") "{{A}}{{A}}" = "x{{A}}{{A}}{{A}}{{A}}".
Proof. reflexivity. Qed.

Example endswith_of_lowered_path : Str.endswith (Str.lower "CV.DOCX") ".docx" = true.
Proof. reflexivity. Qed.

Example findall_in_order :
  Pattern.findall "Dear {{NAME}}, welcome to {{CITY}}. {{NAME}}" = ["NAME"; "CITY"; "NAME"].
Proof. reflexivity. Qed.

Example findall_needs_a_name :
  Pattern.findall "{{}} {{a-b}} {{{x_1}}} {{A}" = ["x_1"].
Proof. reflexivity. Qed.

Example substitution_of_the_specification :
  new_text ana "Dear {{NAME}}, welcome to {{CITY}}." = "Dear Ana, welcome to Lisbon."
  ∧ new_text ana "Your role: {{ROLE}}" = "Your role: {{ROLE}}".
Proof. by vm_compute. Qed.

Example empty_map_changes_nothing :
  replace_placeholders_of [] letter = letter.
Proof. reflexivity. Qed.

Example clear_then_read_docx :
  ∃ fs',
    clear_docx_metadata quiet "cv.docx" disk = (inr tt, fs')
    ∧ fs' !! "cv.docx" = Some (DocxFile (set_core_properties letter "" "" "" ""))
    ∧ core_properties (set_core_properties letter "" "" "" "")
      = {| title := Some "None"; author := Some "None";
           comments := Some "A letter to fill in"; category := Some "None" |}
    ∧ read_docx_metadata quiet "cv.docx" fs'
      = (inl (AttributeError "description"), fs').
Proof.
  exists (<["cv.docx" := DocxFile (set_core_properties letter "" "" "" "")]> disk).
  split; [by vm_compute|]. split; [by vm_compute|]. split; by vm_compute.
Qed.

Example read_of_the_letter :
  read_docx_metadata quiet "cv.docx" disk = (inl (AttributeError "creator"), disk).
Proof. by vm_compute. Qed.

(** ** Instances of the claims *)

Lemma scanner_on_the_letter :
  ∃ names,
    extract_placeholders quiet "cv.docx" disk = (inr names, disk)
    ∧ names = ["CITY"; "NAME"; "ROLE"].
Proof.
  destruct (scanner_returns_sorted_distinct_names quiet "cv.docx" disk letter)
    as (names & Hrun & Hnames & _).
  - reflexivity.
  - vm_compute. reflexivity.
  - exists names. split; [exact Hrun|]. rewrite Hnames. vm_compute. reflexivity.
Defined.

Lemma substitution_on_the_letter :
  ∃ p',
    store (replace_placeholders_of ana letter) !! 0 = Some p'
    ∧ paragraph_text p' = "Dear Ana, welcome to Lisbon.".
Proof.
  destruct (substitution_of_mapped_placeholders ana letter 0
              {| runs := [ {| run_text := "Dear {{NAME}}, "; run_rPr := Some "<w:b/>" |};
                           {| run_text := "welcome to {{CITY}}."; run_rPr := None |} ] |})
    as (p' & Hlookup & Htext).
  - repeat constructor.
  - vm_compute. constructor.
  - reflexivity.
  - vm_compute. reflexivity.
  - exists p'. split; [exact Hlookup|]. rewrite Htext. vm_compute. reflexivity.
Defined.

Lemma runs_of_the_letter :
  ∃ p',
    store (replace_placeholders_of ana letter) !! 0 = Some p'
    ∧ runs p' = [{| run_text := "Dear Ana, welcome to Lisbon."; run_rPr := None |}].
Proof.
  destruct (changed_paragraph_collapses_to_one_run ana letter 0
              {| runs := [ {| run_text := "Dear {{NAME}}, "; run_rPr := Some "<w:b/>" |};
                           {| run_text := "welcome to {{CITY}}."; run_rPr := None |} ] |})
    as (p' & Hlookup & Hiter & _).
  - reflexivity.
  - exists p'. split; [exact Hlookup|]. rewrite Hiter. vm_compute. reflexivity.
Defined.

Lemma full_disk_keeps_the_document :
  ∃ e fs',
    write_metadata disk_full Docx "cv.docx" "T" "C" "D" "G" disk = (inl e, fs')
    ∧ fs' !! "cv.docx" = disk !! "cv.docx".
Proof.
  destruct (failure_before_move_keeps_target disk_full Docx "cv.docx" "T" "C" "D" "G" disk)
    as [Hfails _].
  - vm_compute. reflexivity.
  - destruct Hfails as [Hwrite _]; [|exact Hwrite].
    right. right. right. simpl. discriminate.
Defined.

Lemma letter_kept_when_filled_elsewhere :
  ∃ r fs',
    replace_placeholders quiet "cv.docx" ana "filled.docx" disk = (r, fs')
    ∧ fs' !! "cv.docx" = disk !! "cv.docx".
Proof.
  destruct (template_file_kept_when_destination_differs quiet "cv.docx" ana
              "filled.docx" disk) as (r & fs' & Hrun & Hkept & _).
  - discriminate.
  - exists r, fs'. split; [exact Hrun|exact Hkept].
Defined.

Lemma quiet_has_no_faults : no_faults quiet.
Proof. intros call. reflexivity. Defined.

Lemma round_trip_on_the_disk :
  (∃ fs',
     write_metadata quiet Docx "cv.docx" "T" "C" "D" "G" disk = (inr tt, fs')
     ∧ read_metadata quiet Docx "cv.docx" fs'
       = (inl (AttributeError "description"), fs'))
  ∧ (∃ fs',
       write_metadata quiet Pdf "cv.pdf" "T" "C" "D" "G" disk = (inr tt, fs')
       ∧ read_metadata quiet Pdf "cv.pdf" fs'
         = (inr [("DC:TITLE", "T"); ("DC:CREATOR", "C");
                 ("CP:DESCRIPTION", "D"); ("CP:CATEGORY", "G")], fs')).
Proof.
  split.
  - apply (metadata_round_trip_fails_on_docx quiet Docx "cv.docx" "T" "C" "D" "G" disk).
    + exact quiet_has_no_faults.
    + vm_compute. reflexivity.
    + vm_compute. reflexivity.
  - apply (metadata_round_trip_fails_on_docx quiet Pdf "cv.pdf" "T" "C" "D" "G" disk).
    + exact quiet_has_no_faults.
    + vm_compute. reflexivity.
    + vm_compute. reflexivity.
Defined.

Lemma scan_loses_its_keywords :
  ∃ info,
    write_pdf_metadata quiet "cv.pdf" "T" "C" "D" "G" disk
    = (inr tt, <["cv.pdf" := PdfFile {| pages := pages scan; metadata := Some info |}]> disk)
    ∧ info !! "/Keywords" = None
    ∧ info !! "/Producer" = Some "PyPDF2".
Proof.
  destruct (pdf_information_not_carried_over quiet "cv.pdf" "T" "C" "D" "G" disk scan)
    as (info & Hwrite & _ & _ & _ & _ & Hother & _).
  - exact quiet_has_no_faults.
  - vm_compute. reflexivity.
  - vm_compute. reflexivity.
  - exists info. split; [exact Hwrite|]. split.
    + rewrite Hother; [vm_compute; reflexivity|]. set_solver.
    + rewrite Hother; [vm_compute; reflexivity|]. set_solver.
Defined.



(** * Further properties of the code *)

(** ** What the scanner finds *)

Lemma contains_here s old : String.prefix old s = true → Str.contains s old = true.
Proof. intros H. destruct s; simpl in *; by rewrite H. Qed.

Lemma contains_later c s old :
  Str.contains s old = true → Str.contains (String c s) old = true.
Proof.
  intros H. cbn [Str.contains].
  destruct (String.prefix old (String c s)); [done|exact H].
Qed.

Lemma findall_from_step c s :
  Pattern.findall_from 0 (String c s)
  = match Pattern.match_here (String c s) with
    | Some name => name :: Pattern.findall_from (String.length name + 3) s
    | None => Pattern.findall_from 0 s
    end.
Proof. reflexivity. Qed.

Lemma findall_from_found skip s name :
  name ∈ Pattern.findall_from skip s →
  is_name name = true ∧ Str.contains s (placeholder name) = true.
Proof.
  revert skip. induction s as [|c s IH]; intros skip Hin.
  - by apply not_elem_of_nil in Hin.
  - destruct skip as [|k].
    + rewrite findall_from_step in Hin.
      destruct (Pattern.match_here (String c s)) as [found|] eqn:Hm.
      * apply match_here_Some in Hm as [Hname Hs].
        apply elem_of_cons in Hin as [->|Hin].
        -- split; [done|]. apply contains_here. rewrite Hs. apply prefix_app.
        -- apply IH in Hin as [? ?]. split; [done|]. by apply contains_later.
      * apply IH in Hin as [? ?]. split; [done|]. by apply contains_later.
    + apply (IH k) in Hin as [? ?]. split; [done|]. by apply contains_later.
Qed.

Lemma elem_of_matches_in els ps name :
  name ∈ matches_in els ps ↔
  ∃ i p, i ∈ ps ∧ els !! i = Some p ∧ name ∈ Pattern.findall (paragraph_text p).
Proof.
  unfold matches_in. rewrite list_elem_of_bind. split.
  - intros (i & Hin & Hi). destruct (els !! i) as [p|] eqn:Hp.
    + by exists i, p.
    + by apply not_elem_of_nil in Hin.
  - intros (i & p & Hi & Hp & Hin). exists i. by rewrite Hp.
Qed.

Lemma elem_of_extract_placeholders_of d name :
  name ∈ extract_placeholders_of d ↔ name ∈ all_matches d.
Proof.
  rewrite extract_placeholders_of_found. unfold sorted.
  by rewrite merge_sort_Permutation, elem_of_elements, elem_of_list_to_set.
Qed.

(** X1. Every name the scanner returns is one the pattern can capture, not
    empty and made of letters, digits and underscores, and the token
    [{{name}}] stands literally in the text of a paragraph of the traversal,
    where [str.replace] will find it. *)
Theorem scanned_names_are_tokens_of_the_text :
  ∀ (d : Document) (name : string),
    name ∈ extract_placeholders_of d →
    is_name name = true
    ∧ ∃ i p,
        i ∈ traversal d
        ∧ store d !! i = Some p
        ∧ Str.contains (paragraph_text p) (placeholder name) = true.
Proof.
  intros d name Hin.
  apply elem_of_extract_placeholders_of, elem_of_matches_in in Hin
    as (i & p & Hi & Hp & Hin).
  apply findall_from_found in Hin as [Hname Hcontains].
  split; [done|]. by exists i, p.
Qed.

(** *** The pattern on chunks *)

Lemma findall_from_skip a s :
  Pattern.findall_from (String.length a) (a +:+ s) = Pattern.findall_from 0 s.
Proof.
  induction a as [|c a IH]; [done|].
  rewrite sapp_cons. exact IH.
Qed.

Lemma findall_render cs :
  Forall (fun ch => chunk_ok ch = true) cs →
  Pattern.findall (render cs) = tokens cs.
Proof.
  unfold Pattern.findall, tokens.
  induction 1 as [|ch cs Hch _ IH]; [done|].
  rewrite bind_cons, render_cons, <- IH.
  destruct ch as [c|name].
  - change (Pattern.findall_from 0 (String c (render cs))
            = Pattern.findall_from 0 (render cs)).
    apply negb_true_iff in Hch.
    by rewrite findall_from_step, match_here_lit by (by apply not_brace_open).
  - change (Pattern.findall_from 0 (placeholder name +:+ render cs)
            = name :: Pattern.findall_from 0 (render cs)).
    pose proof (match_here_token name (render cs) Hch) as Hm.
    rewrite token_app in *. rewrite findall_from_step, Hm. f_equal.
    replace (String.length name + 3)
      with (String.length (String "{" (name +:+ "}}"))).
    + rewrite <- (findall_from_skip (String "{" (name +:+ "}}")) (render cs)).
      by rewrite (sapp_cons _ (name +:+ "}}")), sapp_assoc.
    + simpl. rewrite length_sapp. simpl. lia.
Qed.

Lemma tokens_app cs ds : tokens (cs ++ ds) = tokens cs ++ tokens ds.
Proof. apply bind_app. Qed.

Lemma tokens_lits s : tokens (lits s) = [].
Proof.
  induction s as [|c s IH]; [done|].
  change (lits (String c s)) with (Lit c :: lits s).
  unfold tokens in *. by rewrite bind_cons, IH.
Qed.

Lemma tokens_substitute replacements cs :
  tokens (cs ≫= substitute_chunk replacements)
  = filter (fun name => dict_get replacements name = None) (tokens cs).
Proof.
  induction cs as [|ch cs IH]; [done|].
  rewrite bind_cons, tokens_app, IH.
  unfold tokens at 3. rewrite bind_cons. fold (tokens cs).
  rewrite filter_app. f_equal.
  destruct ch as [c|name]; [done|]. simpl.
  destruct (dict_get replacements name) as [value|] eqn:Hget.
  - rewrite tokens_lits, filter_cons_False; [done|]. by rewrite Hget.
  - by rewrite filter_cons_True.
Qed.

(** The names in a text after the passes: those that are no keys. *)
Lemma findall_new_text replacements text :
  Forall entry_ok replacements →
  placeholder_braces_only text = true →
  Pattern.findall (new_text replacements text)
  = filter (fun name => dict_get replacements name = None) (Pattern.findall text).
Proof.
  intros Hm (cs & Hcs & <-)%placeholder_braces_only_chunks.
  rewrite new_text_render, passes_substitute by done.
  rewrite !findall_render by (by try apply substitute_chunk_ok).
  apply tokens_substitute.
Qed.

(** ** What the substitutor leaves alone *)

Lemma replace_in_paragraphs_length replacements ps els :
  List.length (replace_in_paragraphs replacements ps els) = List.length els.
Proof.
  revert els. induction ps as [|i ps IH]; intros els; [done|].
  rewrite replace_in_paragraphs_cons, IH.
  destruct (els !! i); [apply length_insert|done].
Qed.

Lemma visits_absent i ps : i ∉ ps → visits i ps = 0.
Proof.
  intros Hi. unfold visits.
  destruct (filter (eq i) ps) as [|j rest] eqn:Hf; [done|].
  assert (j ∈ filter (eq i) ps) as [<- ?]%list_elem_of_filter; [|done].
  rewrite Hf. left.
Qed.

Lemma traversal_replace_placeholders_of replacements d :
  traversal (replace_placeholders_of replacements d) = traversal d.
Proof. reflexivity. Qed.

(** X2. The substitutor never adds, removes or moves a paragraph: the
    store keeps its length, a paragraph the traversal does not visit (one of
    a nested table, say) stays as it is, and the body, the tables, the
    sections and the core properties are those of the template. *)
Theorem substitutor_keeps_the_structure :
  ∀ (replacements : dict) (d : Document),
    List.length (store (replace_placeholders_of replacements d)) = List.length (store d)
    ∧ (∀ i, i ∉ traversal d →
            store (replace_placeholders_of replacements d) !! i = store d !! i)
    ∧ paragraphs (replace_placeholders_of replacements d) = paragraphs d
    ∧ tables (replace_placeholders_of replacements d) = tables d
    ∧ sections (replace_placeholders_of replacements d) = sections d
    ∧ core_properties (replace_placeholders_of replacements d) = core_properties d.
Proof.
  intros replacements d. split; [|split; [|done]].
  - rewrite replace_placeholders_of_store. apply replace_in_paragraphs_length.
  - intros i Hi.
    rewrite replace_placeholders_of_store, replace_in_paragraphs_lookup.
    rewrite visits_absent by done. by destruct (store d !! i).
Qed.

Lemma visits_elem i ps : visits i ps ≠ 0 → i ∈ ps.
Proof.
  intros Hv. destruct (decide (i ∈ ps)) as [|Hi]; [done|].
  by rewrite visits_absent in Hv.
Qed.

Lemma replace_placeholders_of_eq replacements d :
  (∀ i, store (replace_placeholders_of replacements d) !! i = store d !! i) →
  replace_placeholders_of replacements d = d.
Proof.
  intros Hstore. apply list_eq in Hstore.
  destruct d as [els ps ts ss props].
  unfold replace_placeholders_of in *. simpl in *. by rewrite Hstore.
Qed.

Lemma untouched_by_visited replacements d i p :
  untouched_by replacements d = true →
  i ∈ traversal d →
  store d !! i = Some p →
  Forall (fun kv => Str.contains (paragraph_text p) (placeholder kv.1) = false)
         replacements.
Proof.
  intros Hd Hi%list_elem_of_In Hp. unfold untouched_by in Hd.
  rewrite forallb_forall in Hd. specialize (Hd i Hi). rewrite Hp in Hd.
  rewrite forallb_forall in Hd. apply Forall_forall.
  intros kv Hkv%list_elem_of_In. by apply negb_true_iff, Hd.
Qed.

(** X3. A map none of whose keys has its token in a visited paragraph
    changes nothing: the filled document is the template, runs and run
    properties included. The empty map is such a map. *)
Theorem map_without_matches_changes_nothing :
  ∀ (replacements : dict) (d : Document),
    untouched_by replacements d = true →
    replace_placeholders_of replacements d = d.
Proof.
  intros replacements d Hd. apply replace_placeholders_of_eq. intros i.
  rewrite replace_placeholders_of_store, replace_in_paragraphs_lookup.
  destruct (store d !! i) as [p|] eqn:Hp; [|done].
  destruct (decide (i ∈ traversal d)) as [Hi|Hi].
  - simpl. f_equal. apply replace_in_paragraph_iter_absent.
    by eapply untouched_by_visited.
  - by rewrite visits_absent.
Qed.

(** ** Filling twice, and scanning what was filled *)

Lemma template_ok_visited d i p :
  template_ok d = true →
  i ∈ traversal d →
  store d !! i = Some p →
  placeholder_braces_only (paragraph_text p) = true.
Proof.
  intros Hd Hi%list_elem_of_In Hp. unfold template_ok in Hd.
  rewrite forallb_forall in Hd. specialize (Hd i Hi). by rewrite Hp in Hd.
Qed.

(** A visited paragraph with braces only around placeholders, after any
    number of visits: its text is the text after one. *)
Lemma visited_paragraph replacements p n :
  Forall entry_ok replacements →
  placeholder_braces_only (paragraph_text p) = true →
  paragraph_text (Nat.iter (S n) (replace_in_paragraph replacements) p)
  = new_text replacements (paragraph_text p)
  ∧ replace_in_paragraph replacements
      (Nat.iter (S n) (replace_in_paragraph replacements) p)
    = Nat.iter (S n) (replace_in_paragraph replacements) p.
Proof.
  intros Hm Hb.
  assert (paragraph_text (Nat.iter (S n) (replace_in_paragraph replacements) p)
          = new_text replacements (paragraph_text p)) as Htext.
  { rewrite replace_in_paragraph_iter_text. apply iter_idem. by apply new_text_idem. }
  split; [done|].
  apply replace_in_paragraph_unchanged. rewrite Htext. by apply new_text_idem.
Qed.

Lemma iter_fixed {A} (g : A → A) (x : A) n : g x = x → Nat.iter n g x = x.
Proof. intros Hg. induction n as [|n IH]; [done|]. simpl. by rewrite IH. Qed.

(** X4. Filling is idempotent on templates whose braces only delimit
    placeholders: for a map without braces in keys and values, filling the
    filled document again with the same map gives the filled document. *)
Theorem filling_twice_is_filling_once :
  ∀ (replacements : dict) (d : Document),
    Forall entry_ok replacements →
    template_ok d = true →
    replace_placeholders_of replacements (replace_placeholders_of replacements d)
    = replace_placeholders_of replacements d.
Proof.
  intros replacements d Hm Hd. apply replace_placeholders_of_eq. intros i.
  rewrite (replace_placeholders_of_store replacements (replace_placeholders_of _ _)).
  rewrite traversal_replace_placeholders_of, replace_in_paragraphs_lookup.
  rewrite replace_placeholders_of_store, replace_in_paragraphs_lookup.
  destruct (store d !! i) as [p|] eqn:Hp; [|done].
  simpl. f_equal.
  destruct (visits i (traversal d)) as [|n] eqn:Hn; [done|].
  apply iter_fixed.
  apply visited_paragraph; [done|].
  eapply template_ok_visited; [done| |done]. apply visits_elem. by rewrite Hn.
Qed.

Lemma visited_paragraph_filled replacements d i :
  Forall entry_ok replacements →
  template_ok d = true →
  i ∈ traversal d →
  ∀ p',
    store (replace_placeholders_of replacements d) !! i = Some p' ↔
    ∃ p,
      store d !! i = Some p
      ∧ p' = Nat.iter (visits i (traversal d)) (replace_in_paragraph replacements) p
      ∧ paragraph_text p' = new_text replacements (paragraph_text p).
Proof.
  intros Hm Hd Hi p'.
  rewrite replace_placeholders_of_store, replace_in_paragraphs_lookup.
  pose proof (visits_pos i _ Hi) as Hpos.
  destruct (visits i (traversal d)) as [|n]; [lia|].
  destruct (store d !! i) as [p|] eqn:Hp.
  - pose proof (template_ok_visited d i p Hd Hi Hp) as Hb.
    destruct (visited_paragraph replacements p n Hm Hb) as [Htext _].
    split.
    + intros [= <-]. by exists p.
    + intros (q & [= <-] & -> & _). done.
  - split; [done|]. by intros (q & ? & _).
Qed.

Lemma elem_of_extract_filled replacements d name :
  Forall entry_ok replacements →
  template_ok d = true →
  name ∈ extract_placeholders_of (replace_placeholders_of replacements d) ↔
  name ∈ extract_placeholders_of d ∧ dict_get replacements name = None.
Proof.
  intros Hm Hd. rewrite !elem_of_extract_placeholders_of. unfold all_matches.
  rewrite traversal_replace_placeholders_of, !elem_of_matches_in. split.
  - intros (i & p' & Hi & Hp' & Hin).
    apply (visited_paragraph_filled replacements d i Hm Hd Hi) in Hp'
      as (p & Hp & _ & Htext).
    rewrite Htext, findall_new_text in Hin
      by (by try eapply template_ok_visited).
    apply list_elem_of_filter in Hin as [Hnone Hin].
    split; [|done]. by exists i, p.
  - intros [(i & p & Hi & Hp & Hin) Hnone].
    exists i, (Nat.iter (visits i (traversal d)) (replace_in_paragraph replacements) p).
    assert (store (replace_placeholders_of replacements d) !! i
            = Some (Nat.iter (visits i (traversal d))
                      (replace_in_paragraph replacements) p)) as Hp'.
    { by rewrite replace_placeholders_of_store, replace_in_paragraphs_lookup, Hp. }
    split; [done|]. split; [done|].
    apply (visited_paragraph_filled replacements d i Hm Hd Hi) in Hp'
      as (q & Hq & _ & Htext).
    rewrite Hp in Hq. injection Hq as <-.
    rewrite Htext, findall_new_text by (by try eapply template_ok_visited).
    by apply list_elem_of_filter.
Qed.

(** X5. Scanning a filled document: for a map without braces in keys and
    values and a template whose braces only delimit placeholders, the
    scanner finds in the filled document exactly the names of the template
    that are not keys of the map; if every name of the template is a key,
    it finds none. *)
Theorem scan_of_filled_document :
  ∀ (replacements : dict) (d : Document),
    Forall entry_ok replacements →
    template_ok d = true →
    (∀ name,
       name ∈ extract_placeholders_of (replace_placeholders_of replacements d) ↔
       name ∈ extract_placeholders_of d ∧ dict_get replacements name = None)
    ∧ ((∀ name, name ∈ extract_placeholders_of d →
                is_Some (dict_get replacements name)) →
       extract_placeholders_of (replace_placeholders_of replacements d) = []).
Proof.
  intros replacements d Hm Hd. split.
  - intros name. by apply elem_of_extract_filled.
  - intros Hall.
    destruct (extract_placeholders_of (replace_placeholders_of replacements d))
      as [|name rest] eqn:Hscan; [done|]. exfalso.
    assert (name ∈ extract_placeholders_of (replace_placeholders_of replacements d))
      as Hin by (rewrite Hscan; left).
    apply elem_of_extract_filled in Hin as [Hin Hnone]; [|done..].
    apply Hall in Hin as [value Hsome]. congruence.
Qed.

(** ** Metadata edits on the disk *)

Lemma run_edit_done E fmt e path fs f :
  no_faults E →
  fs !! path = Some f →
  has_format fmt (Some f) = true →
  fs !! temp_name E fs (suffix fmt) = None →
  run_edit E fmt e path fs = (inr tt, <[path := edited E e f]> fs).
Proof.
  intros HE Hp Hfmt Ht.
  destruct fmt, f as [doc|pdf|content]; try done; destruct e as [t c d g|]; simpl.
  - by apply write_docx_metadata_done.
  - by apply write_docx_metadata_done.
  - by apply write_pdf_metadata_done.
  - by apply clear_pdf_metadata_done.
Qed.

Lemma has_format_edited E fmt e f :
  has_format fmt (Some (edited E e f)) = has_format fmt (Some f).
Proof. by destruct fmt, f, e. Qed.

Lemma edited_edited E e1 e2 f : edited E e2 (edited E e1 f) = edited E e2 f.
Proof. by destruct f, e1, e2. Qed.

Lemma has_format_file fmt o : has_format fmt o = true → ∃ f, o = Some f.
Proof. destruct o as [f|]; [by exists f|by destruct fmt]. Qed.

Lemma read_docx_metadata_files E path fs : (read_docx_metadata E path fs).2 = fs.
Proof.
  destruct (Document_ E path fs) as [[e|doc] fs0] eqn:Hdoc.
  - unfold read_docx_metadata. erewrite bind_inl by done.
    revert Hdoc. unfold Document_.
    destruct (fault E Document_open); [by intros [= _ <-]|].
    destruct (fs !! path) as [[doc|pdf|content]|]; by intros [= _ <-].
  - revert Hdoc. unfold Document_.
    destruct (fault E Document_open) eqn:Hf; [done|].
    destruct (fs !! path) as [[doc'|pdf|content]|] eqn:Hp; try done.
    intros _. by erewrite read_docx_metadata_raises.
Qed.

(** X6. The scanner and the readers only read: whether they return or
    raise, the files are what they were. *)
Theorem readers_leave_the_files :
  ∀ (E : env) (path : string) (fs : gmap string file),
    (extract_placeholders E path fs).2 = fs
    ∧ (read_docx_metadata E path fs).2 = fs
    ∧ (read_pdf_metadata E path fs).2 = fs
    ∧ (_read_metadata_try E path fs).2 = fs.
Proof.
  intros E path fs.
  pose proof (read_docx_metadata_files E path fs) as Hdocx.
  assert ((extract_placeholders E path fs).2 = fs
          ∧ (read_pdf_metadata E path fs).2 = fs) as (Hscan & Hpdf).
  { unfold extract_placeholders, read_pdf_metadata, bind, Document_, PdfReader.
    destruct (fault E Document_open), (fault E PdfReader_open);
      destruct (fs !! path) as [[doc|pdf|content]|]; done. }
  repeat split; try done.
  unfold _read_metadata_try.
  destruct (Str.endswith (Str.lower path) ".docx"); [done|].
  destruct (Str.endswith (Str.lower path) ".pdf"); done.
Qed.

(** X7. A metadata write or clear in which nothing fails changes the
    metadata only: every other file is what it was and no temporary file
    stays behind, a word-processing document keeps its paragraphs, tables
    and sections, and a PDF keeps its pages. *)
Theorem metadata_edit_keeps_the_content :
  ∀ (E : env) (fmt : format) (e : edit) (path : string) (fs : gmap string file),
    no_faults E →
    has_format fmt (fs !! path) = true →
    fs !! temp_name E fs (suffix fmt) = None →
    ∃ fs',
      run_edit E fmt e path fs = (inr tt, fs')
      ∧ (∀ other, other ≠ path → fs' !! other = fs !! other)
      ∧ (∀ doc, fs !! path = Some (DocxFile doc) →
                ∃ doc',
                  fs' !! path = Some (DocxFile doc')
                  ∧ store doc' = store doc
                  ∧ paragraphs doc' = paragraphs doc
                  ∧ tables doc' = tables doc
                  ∧ sections doc' = sections doc)
      ∧ (∀ pdf, fs !! path = Some (PdfFile pdf) →
                ∃ pdf', fs' !! path = Some (PdfFile pdf') ∧ pages pdf' = pages pdf).
Proof.
  intros E fmt e path fs HE Hfmt Ht.
  destruct (has_format_file _ _ Hfmt) as [f Hp]. rewrite Hp in Hfmt.
  exists (<[path := edited E e f]> fs).
  split; [by apply run_edit_done|]. split; [|split].
  - intros other Hother. by rewrite lookup_insert_ne.
  - intros doc Hdoc. rewrite Hp in Hdoc. injection Hdoc as ->.
    rewrite lookup_insert_eq. destruct e; by eexists.
  - intros pdf Hpdf. rewrite Hp in Hpdf. injection Hpdf as ->.
    rewrite lookup_insert_eq. destruct e; by eexists.
Qed.

(** X8. When rendering into the temporary file fails (the source has been
    read, the setters of a word-processing document have accepted the
    values and the temporary file has been made), the write or clear
    raises the library's exception and the temporary file stays on the
    disk: it was made with [delete=False] and nothing removes it. Every
    other file, the target included, is what it was. *)
Theorem failed_render_leaves_the_temporary_file :
  ∀ (E : env) (fmt : format) (e : edit) (path : string) (fs : gmap string file)
    (f : failure),
    fault E (open_call fmt) = None →
    has_format fmt (fs !! path) = true →
    (fmt = Docx → fault E CoreProperties_set = None) →
    fault E NamedTemporaryFile = None →
    fault E (render_call fmt) = Some f →
    fs !! temp_name E fs (suffix fmt) = None →
    ∃ fs',
      run_edit E fmt e path fs = (inl (raised f), fs')
      ∧ is_Some (fs' !! temp_name E fs (suffix fmt))
      ∧ (∀ other, other ≠ temp_name E fs (suffix fmt) → fs' !! other = fs !! other).
Proof.
  intros E fmt e path fs f Hopen Hfmt Hset Htmp Hrender Ht.
  assert (∀ name (fs0 : gmap string file),
            is_Some (after_failure f name (<[name := OtherFile ""]> fs0) !! name)
            ∧ ∀ other, other ≠ name →
                after_failure f name (<[name := OtherFile ""]> fs0) !! other
                = fs0 !! other) as Hleft.
  { intros name fs0. unfold after_failure. destruct (debris f); split.
    - rewrite lookup_insert_eq. by eexists.
    - intros other Hne. by rewrite !lookup_insert_ne.
    - rewrite lookup_insert_eq. by eexists.
    - intros other Hne. by rewrite lookup_insert_ne. }
  destruct fmt; simpl in *.
  - apply has_format_docx in Hfmt as [doc Hp]. specialize (Hset eq_refl).
    eexists. split; [|apply Hleft].
    destruct e; simpl; unfold clear_docx_metadata, write_docx_metadata;
      (erewrite bind_inr; [|by apply Document_readable]);
      rewrite assignments_accepted by done;
      unfold bind, NamedTemporaryFile_, save; by rewrite Htmp, Hrender.
  - apply has_format_pdf in Hfmt as [pdf Hp].
    eexists. split; [|apply Hleft].
    destruct e; simpl;
      unfold clear_pdf_metadata, write_pdf_metadata, bind, PdfReader,
        NamedTemporaryFile_, write;
      by rewrite Hopen, Hp, Htmp, Hrender.
Qed.

(** X9. The last edit wins: after a write or clear that succeeded, a
    second write or clear of the same file leaves the disk exactly as it
    would have left it without the first. In particular clearing twice is
    clearing once, and a write after a clear is the write. *)
Theorem second_edit_overrides_the_first :
  ∀ (E : env) (fmt : format) (e1 e2 : edit) (path : string)
    (fs fs1 : gmap string file),
    no_faults E →
    has_format fmt (fs !! path) = true →
    fs !! temp_name E fs (suffix fmt) = None →
    run_edit E fmt e1 path fs = (inr tt, fs1) →
    fs1 !! temp_name E fs1 (suffix fmt) = None →
    run_edit E fmt e2 path fs1 = run_edit E fmt e2 path fs.
Proof.
  intros E fmt e1 e2 path fs fs1 HE Hfmt Ht Hrun Ht1.
  destruct (has_format_file _ _ Hfmt) as [f Hp]. rewrite Hp in Hfmt.
  rewrite (run_edit_done E fmt e1 path fs f) in Hrun by done.
  injection Hrun as <-.
  rewrite (run_edit_done E fmt e2 path fs f) by done.
  rewrite (run_edit_done E fmt e2 path _ (edited E e1 f)).
  - by rewrite edited_edited, insert_insert_eq.
  - done.
  - apply lookup_insert_eq.
  - by rewrite has_format_edited.
  - done.
Qed.

(** X10. Clearing a PDF and then reading it gives four empty strings,
    when a fresh [PdfWriter()] carries none of the four keys. *)
Theorem read_after_clear_is_empty :
  ∀ (E : env) (path : string) (fs : gmap string file),
    no_faults E →
    has_format Pdf (fs !! path) = true →
    fs !! temp_name E fs ".pdf" = None →
    Forall (fun key => fresh_info E !! key = None) info_keys →
    ∃ fs',
      clear_pdf_metadata E path fs = (inr tt, fs')
      ∧ read_pdf_metadata E path fs'
        = (inr [("DC:TITLE", ""); ("DC:CREATOR", ""); ("CP:DESCRIPTION", "");
                ("CP:CATEGORY", "")], fs').
Proof.
  intros E path fs HE Hfmt Ht Hfresh.
  apply has_format_pdf in Hfmt as [pdf Hp].
  eexists. split; [by apply clear_pdf_metadata_done|].
  unfold read_pdf_metadata, bind.
  erewrite PdfReader_readable; [|apply HE|apply lookup_insert_eq].
  unfold info_keys in Hfresh.
  apply Forall_cons in Hfresh as [Ht' Hfresh].
  apply Forall_cons in Hfresh as [Ha Hfresh].
  apply Forall_cons in Hfresh as [Hs Hfresh].
  apply Forall_cons in Hfresh as [Hc _].
  unfold ret, record, info_get. cbn [metadata default]. unfold id.
  by rewrite Ht', Ha, Hs, Hc.
Qed.

(** ** The dispatch on the extension *)

Lemma endswith_app s suf : Str.endswith s suf = true ↔ ∃ p, s = p +:+ suf.
Proof.
  split.
  - induction s as [|c s IH]; cbn [Str.endswith].
    + destruct (String.eqb_spec "" suf) as [<-|]; [|done]. by exists "".
    + destruct (String.eqb_spec (String c s) suf) as [<-|_]; [by exists ""|].
      intros [p ->]%IH. by exists (String c p).
  - intros [p ->]. induction p as [|c p IH].
    + change ("" +:+ suf) with suf.
      destruct suf; cbn [Str.endswith]; by rewrite ?String.eqb_refl.
    + rewrite sapp_cons. cbn [Str.endswith]. rewrite IH.
      by destruct (String.eqb (String c (p +:+ suf)) suf).
Qed.

Lemma lower_app a b : Str.lower (a +:+ b) = Str.lower a +:+ Str.lower b.
Proof.
  induction a as [|c a IH]; [done|].
  rewrite sapp_cons. cbn [Str.lower]. by rewrite IH, sapp_cons.
Qed.

Lemma lower_split s a b :
  Str.lower s = a +:+ b →
  ∃ p e, s = p +:+ e ∧ Str.lower p = a ∧ Str.lower e = b.
Proof.
  revert s. induction a as [|c a IH]; intros s Hs.
  - by exists "", s.
  - destruct s as [|d s]; [done|].
    rewrite sapp_cons in Hs. cbn [Str.lower] in Hs. injection Hs as Hd Hs.
    apply IH in Hs as (p & e & -> & <- & <-).
    exists (String d p), e. cbn [Str.lower]. by rewrite Hd.
Qed.

Lemma docx_is_not_pdf s :
  Str.endswith s ".docx" = true → Str.endswith s ".pdf" = false.
Proof.
  induction s as [|c s IH]; [done|].
  intros Hs. cbn [Str.endswith] in Hs.
  destruct (String.eqb_spec (String c s) ".docx") as [Heq|_].
  - by rewrite Heq.
  - cbn [Str.endswith]. rewrite (IH Hs).
    destruct (String.eqb_spec (String c s) ".pdf") as [Heq|_]; [|done].
    injection Heq as -> ->. by vm_compute in Hs.
Qed.

(** X11. The handlers choose the format by the end of the file name alone,
    whatever the case of its letters: a name that ends in [.docx] in any
    case goes to the word-processing functions, one that ends in [.pdf] in
    any case to the PDF functions, and these are the supported names. *)
Theorem dispatch_by_the_end_of_the_name :
  ∀ (E : env) (stem ext : string),
    (Str.lower ext = ".docx" →
     _read_metadata_try E (stem +:+ ext) = read_docx_metadata E (stem +:+ ext)
     ∧ ∀ title creator description category,
         _save_metadata_try E (stem +:+ ext) title creator description category
         = bind (write_docx_metadata E (stem +:+ ext) title creator description category)
                (fun _ => ret (showinfo "Sucesso" "Metadados atualizados!")))
    ∧ (Str.lower ext = ".pdf" →
       _read_metadata_try E (stem +:+ ext) = read_pdf_metadata E (stem +:+ ext)
       ∧ ∀ title creator description category,
           _save_metadata_try E (stem +:+ ext) title creator description category
           = bind (write_pdf_metadata E (stem +:+ ext) title creator description category)
                  (fun _ => ret (showinfo "Sucesso" "Metadados atualizados!")))
    ∧ (∀ path,
         supported path = true ↔
         ∃ stem ext,
           path = stem +:+ ext ∧ (Str.lower ext = ".docx" ∨ Str.lower ext = ".pdf")).
Proof.
  intros E stem ext. split; [|split].
  - intros Hext.
    assert (Str.endswith (Str.lower (stem +:+ ext)) ".docx" = true) as Hdocx.
    { apply endswith_app. exists (Str.lower stem). by rewrite lower_app, Hext. }
    unfold _read_metadata_try, _save_metadata_try. by rewrite Hdocx.
  - intros Hext.
    assert (Str.endswith (Str.lower (stem +:+ ext)) ".pdf" = true) as Hpdf.
    { apply endswith_app. exists (Str.lower stem). by rewrite lower_app, Hext. }
    assert (Str.endswith (Str.lower (stem +:+ ext)) ".docx" = false) as Hdocx.
    { destruct (Str.endswith (Str.lower (stem +:+ ext)) ".docx") eqn:Hd; [|done].
      apply docx_is_not_pdf in Hd. congruence. }
    unfold _read_metadata_try, _save_metadata_try. by rewrite Hdocx, Hpdf.
  - intros path. unfold supported. rewrite orb_true_iff, !endswith_app. split.
    + intros [[p Hp]|[p Hp]]; apply lower_split in Hp as (s & e & -> & _ & He);
        exists s, e; auto.
    + intros (s & e & -> & [He|He]); [left|right];
        exists (Str.lower s); by rewrite lower_app, He.
Qed.

(** ** The forms *)

Lemma dict_set_fresh d key value :
  key ∉ d.*1 → dict_set d key value = d ++ [(key, value)].
Proof.
  induction d as [|[k v] d IH]; [done|].
  intros Hkey. cbn [dict_set].
  destruct (String.eqb_spec k key) as [->|Hne].
  - exfalso. apply Hkey. left.
  - rewrite IH; [done|]. intros Hin. apply Hkey. by right.
Qed.

Lemma dict_set_all (done todo : list (string * string)) :
  NoDup (done ++ todo).*1 →
  foldl (fun d kv => dict_set d kv.1 kv.2) done todo = done ++ todo.
Proof.
  revert done. induction todo as [|[k v] todo IH]; intros done Hnd.
  - by rewrite app_nil_r.
  - cbn [foldl fst snd]. rewrite dict_set_fresh.
    + rewrite IH; by rewrite <- app_assoc.
    + rewrite fmap_app in Hnd. apply NoDup_app in Hnd as (_ & Hnd & _).
      intros Hin. apply (Hnd k Hin). left.
Qed.

(** A list of items with distinct keys is the [dict] made of it. *)
Lemma dict_of_distinct (items : list (string * string)) :
  NoDup items.*1 → dict_of items = items.
Proof. intros Hnd. by apply (dict_set_all [] items). Qed.

Lemma entries_of_names (names : list string) :
  NoDup names →
  foldl (fun entries placeholder => dict_set entries placeholder "") [] names
  = (fun name => (name, "")) <$> names.
Proof.
  intros Hnd.
  assert (NoDup ((fun name => (name, "")) <$> names).*1) as Hkeys.
  { rewrite <- list_fmap_compose.
    by rewrite (list_fmap_ext _ id names) , list_fmap_id. }
  etransitivity; [|exact (dict_of_distinct _ Hkeys)].
  unfold dict_of. by rewrite foldl_fmap.
Qed.

Lemma NoDup_extract_placeholders_of d : NoDup (extract_placeholders_of d).
Proof.
  rewrite extract_placeholders_of_found. unfold sorted.
  rewrite merge_sort_Permutation. apply NoDup_elements.
Qed.

(** X12. Loading a template never raises and never touches the files. When
    no file is chosen or the file cannot be read the form stays as it was,
    in the second case with an error box. When the file is read the form
    forgets its old entries and gets one empty entry for each scanned name,
    in the scanner's order. *)
Theorem load_template_makes_one_entry_per_name :
  ∀ (E : env) (path : string) (self : template_tab) (fs : gmap string file),
    ∃ self' shown,
      _load_template E path self fs = (inr (self', shown), fs)
      ∧ (path = "" → self' = self ∧ shown = None)
      ∧ (path ≠ "" →
         (fault E Document_open ≠ None ∨ has_format Docx (fs !! path) = false) →
         self' = self ∧ ∃ message, shown = Some (showerror "Erro" message))
      ∧ (∀ doc,
           path ≠ "" →
           fault E Document_open = None →
           fs !! path = Some (DocxFile doc) →
           shown = None
           ∧ template_path self' = Some path
           ∧ placeholder_entries self'
             = (fun name => (name, "")) <$> extract_placeholders_of doc).
Proof.
  intros E path self fs. destruct path as [|a path].
  { exists self, None. by repeat split. }
  unfold _load_template, bind, try_except.
  destruct (extract_placeholders E (String a path) fs) as [[e|names] fs'] eqn:Hscan.
  - assert (fs' = fs) as ->.
    { revert Hscan. unfold extract_placeholders, bind, Document_.
      destruct (fault E Document_open); [by intros [= _ <-]|].
      destruct (fs !! String a path) as [[doc|pdf|content]|]; by intros [= _ <-]. }
    eexists self, _. split; [done|]. split; [done|]. split.
    + intros _ _. split; [done|]. by eexists.
    + intros doc _ Hf Hp. exfalso. revert Hscan.
      unfold extract_placeholders, bind. by rewrite (Document_readable E _ fs doc).
  - assert (fs' = fs ∧ ∃ doc, fault E Document_open = None
                              ∧ fs !! String a path = Some (DocxFile doc)
                              ∧ names = extract_placeholders_of doc)
      as (-> & doc & Hf & Hp & ->).
    { revert Hscan. unfold extract_placeholders, bind, Document_.
      destruct (fault E Document_open); [done|].
      destruct (fs !! String a path) as [[doc|pdf|content]|]; try done.
      intros [= <- <-]. split; [done|]. by exists doc. }
    eexists _, None. split; [done|]. split; [done|]. split.
    + intros _ [Hfault|Hfmt]; [done|]. by rewrite Hp in Hfmt.
    + intros doc' _ _ Hp'. rewrite Hp in Hp'. injection Hp' as <-.
      split; [done|]. split; [done|].
      apply entries_of_names, NoDup_extract_placeholders_of.
Qed.

Lemma filter_empty_values (d : dict) :
  filter (fun kv : string * string => kv.2 = "") d ≠ [] ↔ ∃ name, (name, "") ∈ d.
Proof.
  split.
  - destruct (filter (fun kv : string * string => kv.2 = "") d)
      as [|[name value] rest] eqn:Hf; [done|].
    intros _. exists name.
    assert ((name, value) ∈ filter (fun kv : string * string => kv.2 = "") d)
      as [Hv Hin]%list_elem_of_filter by (rewrite Hf; left).
    simpl in Hv. by subst.
  - intros [name Hin] Hf.
    assert ((name, "") ∈ filter (fun kv : string * string => kv.2 = "") d) as Hin'
      by (by apply list_elem_of_filter).
    rewrite Hf in Hin'. by apply not_elem_of_nil in Hin'.
Qed.

Lemma replace_placeholders_run E template replacements save_path fs :
  ∃ r fs',
    replace_placeholders E template replacements save_path fs = (r, fs')
    ∧ (∀ other, other ≠ save_path → fs' !! other = fs !! other)
    ∧ (r = inr tt →
       ∃ doc,
         fs !! template = Some (DocxFile doc)
         ∧ fs' = <[save_path := DocxFile (replace_placeholders_of replacements doc)]> fs).
Proof.
  unfold replace_placeholders, bind, Document_, save.
  destruct (fault E Document_open) as [f|]; [by eexists _, _|].
  destruct (fs !! template) as [[doc|pdf|content]|]; try by eexists _, _.
  destruct (fault E Document_save) as [f|].
  - eexists _, _. split; [done|]. split; [|done].
    intros other Hne. by apply after_failure_other.
  - eexists _, _. split; [done|]. split.
    + intros other Hne. by rewrite lookup_insert_ne.
    + intros _. by exists doc.
Qed.

(** X13. Generating never raises and can change no file but the one at the
    save path. Nothing at all is written when no template is selected (the
    warning is shown), when a field is empty and the question is answered
    with no, or when no save path is chosen (nothing is shown). The success
    box is shown only when the filled template has been saved at the save
    path. *)
Theorem generate_document_writes_only_when_confirmed :
  ∀ (E : env) (self : template_tab) (yes : bool) (save_path : string)
    (fs : gmap string file),
    ∃ shown fs',
      _generate_document E self yes save_path fs = (inr shown, fs')
      ∧ (∀ other, other ≠ save_path → fs' !! other = fs !! other)
      ∧ (template_path self = None ∨ template_path self = Some "" →
         shown = Some (showwarning "Atenção" "Selecione um modelo primeiro.")
         ∧ fs' = fs)
      ∧ (∀ template, template_path self = Some template → template ≠ "" →
         save_path = ""
         ∨ (yes = false ∧ ∃ name, (name, "") ∈ dict_of (placeholder_entries self)) →
         shown = None ∧ fs' = fs)
      ∧ (∀ caption message, shown = Some (box (showinfo caption message)) →
         ∃ template doc,
           template_path self = Some template
           ∧ fs !! template = Some (DocxFile doc)
           ∧ fs' = <[save_path :=
                       DocxFile (replace_placeholders_of
                                   (dict_of (placeholder_entries self)) doc)]> fs
           ∧ message = "Currículo salvo em " +:+ save_path).
Proof.
  intros E self yes save_path fs. unfold _generate_document.
  destruct (template_path self) as [[|a template]|] eqn:Hpath.
  - exists (Some (showwarning "Atenção" "Selecione um modelo primeiro.")), fs.
    split; [done|]. split; [done|]. split; [done|]. split; [|done].
    by intros t [= <-] Ht.
  - cbv zeta.
    destruct (bool_decide (filter (fun kv : string * string => kv.2 = "")
                             (dict_of (placeholder_entries self)) ≠ []) && negb yes)
      eqn:Hstop.
    { exists None, fs.
      split; [done|]. split; [done|]. split; [by intros [|]|]. by split. }
    destruct save_path as [|b save_path].
    { exists None, fs.
      split; [done|]. split; [done|]. split; [by intros [|]|]. by split. }
    assert (¬ (String b save_path = ""
               ∨ (yes = false
                  ∧ ∃ name, (name, "") ∈ dict_of (placeholder_entries self))))
      as Hgo.
    { intros [?|[-> Hex%filter_empty_values]]; [done|].
      by rewrite bool_decide_eq_true_2 in Hstop. }
    destruct (replace_placeholders_run E (String a template)
                (dict_of (placeholder_entries self)) (String b save_path) fs)
      as (r & fs' & Hrun & Hother & Hdone).
    unfold bind, try_except. rewrite Hrun.
    destruct r as [e|[]].
    + eexists _, fs'. split; [done|]. split; [done|].
      split; [by intros [|]|]. split; [|done].
      intros t _ _ Hguard. by destruct Hgo.
    + eexists _, fs'. split; [done|]. split; [done|].
      split; [by intros [|]|]. split.
      * intros t _ _ Hguard. by destruct Hgo.
      * intros caption message [= <- <-].
        destruct (Hdone eq_refl) as (doc & Hdoc & ->).
        by exists (String a template), doc.
  - exists (Some (showwarning "Atenção" "Selecione um modelo primeiro.")), fs.
    split; [done|]. split; [done|]. split; [done|]. by split.
Qed.

Lemma dict_get_is_Some (d : dict) name : name ∈ d.*1 → is_Some (dict_get d name).
Proof.
  induction d as [|[k v] d IH]; [by intros ?%not_elem_of_nil|].
  intros Hin. cbn [dict_get].
  destruct (String.eqb_spec k name) as [->|Hne]; [by eexists|].
  apply IH. rewrite fmap_cons in Hin. by apply elem_of_cons in Hin as [?|?].
Qed.

Lemma scanned_name_is_name d name :
  name ∈ extract_placeholders_of d → is_name name = true.
Proof.
  intros (i & p & _ & _ & Hin)%elem_of_extract_placeholders_of%elem_of_matches_in.
  by apply findall_from_found in Hin as [Hname _].
Qed.

(** X14. Filling in the form: with a readable template whose braces only
    delimit placeholders, the entries the loader made for it and values
    without braces typed into them, a save path chosen and the question
    about empty fields, if asked, answered with yes, the success box is
    shown, the file at the save path is the template filled with the
    entries, and scanning that file finds no placeholder. *)
Theorem generated_document_has_no_placeholder_left :
  ∀ (E : env) (self : template_tab) (template : string) (doc : Document)
    (yes : bool) (save_path : string) (fs : gmap string file),
    fault E Document_open = None →
    fault E Document_save = None →
    template_path self = Some template →
    template ≠ "" →
    fs !! template = Some (DocxFile doc) →
    template_ok doc = true →
    (placeholder_entries self).*1 = extract_placeholders_of doc →
    Forall (fun kv => brace_free kv.2 = true) (placeholder_entries self) →
    save_path ≠ "" →
    yes = true ∨ Forall (fun kv => kv.2 ≠ "") (placeholder_entries self) →
    ∃ fs',
      _generate_document E self yes save_path fs
      = (inr (Some (box (showinfo "Sucesso" ("Currículo salvo em " +:+ save_path)))),
         fs')
      ∧ fs' !! save_path
        = Some (DocxFile (replace_placeholders_of (placeholder_entries self) doc))
      ∧ extract_placeholders E save_path fs' = (inr [], fs').
Proof.
  intros E self template doc yes save_path fs Hopen Hsave Hpath Htemplate Hdoc
    Hok Hkeys Hvalues Hsave_path Hyes.
  assert (dict_of (placeholder_entries self) = placeholder_entries self) as Hdict.
  { apply dict_of_distinct. rewrite Hkeys. apply NoDup_extract_placeholders_of. }
  assert (Forall entry_ok (placeholder_entries self)) as Hentries.
  { apply Forall_forall. intros [name value] Hin. split.
    - apply is_name_brace_free, (scanned_name_is_name doc). rewrite <- Hkeys.
      by apply (list_elem_of_fmap_2 fst) in Hin.
    - rewrite Forall_forall in Hvalues. by apply (Hvalues _ Hin). }
  exists (<[save_path :=
             DocxFile (replace_placeholders_of (placeholder_entries self) doc)]> fs).
  split; [|split].
  - unfold _generate_document. rewrite Hpath, Hdict.
    destruct template as [|a template]; [done|]. cbv zeta.
    assert (bool_decide (filter (fun kv : string * string => kv.2 = "")
                           (placeholder_entries self) ≠ []) && negb yes = false)
      as ->.
    { destruct Hyes as [->|Hfull]; [apply andb_false_r|].
      rewrite bool_decide_eq_false_2; [done|].
      intros [name Hin]%filter_empty_values.
      rewrite Forall_forall in Hfull. by apply (Hfull _ Hin). }
    destruct save_path as [|b save_path]; [done|].
    unfold try_except, replace_placeholders, bind.
    rewrite (Document_readable E _ fs doc Hopen Hdoc).
    unfold save. by rewrite Hsave.
  - apply lookup_insert_eq.
  - unfold extract_placeholders, bind.
    erewrite Document_readable; [|done|apply lookup_insert_eq].
    unfold ret. f_equal. f_equal.
    destruct (extract_placeholders_of
                (replace_placeholders_of (placeholder_entries self) doc))
      as [|name rest] eqn:Hscan; [done|].
    exfalso.
    destruct (proj1 (elem_of_extract_filled (placeholder_entries self) doc name
                       Hentries Hok)) as [Hin Hnone]; [rewrite Hscan; left|].
    rewrite <- Hkeys in Hin. apply dict_get_is_Some in Hin as [value Hsome].
    congruence.
Qed.

(** ** The metadata forms *)

Lemma dispatch_read E fmt path :
  Str.endswith (Str.lower path) (suffix fmt) = true →
  _read_metadata_try E path = read_metadata E fmt path.
Proof.
  intros H. unfold _read_metadata_try. destruct fmt; simpl in *.
  - by rewrite H.
  - destruct (Str.endswith (Str.lower path) ".docx") eqn:Hd.
    + apply docx_is_not_pdf in Hd. congruence.
    + by rewrite H.
Qed.

Lemma dispatch_save E fmt path t c d g :
  Str.endswith (Str.lower path) (suffix fmt) = true →
  _save_metadata_try E path t c d g
  = bind (write_metadata E fmt path t c d g)
         (fun _ => ret (showinfo "Sucesso" "Metadados atualizados!")).
Proof.
  intros H. unfold _save_metadata_try. destruct fmt; simpl in *.
  - by rewrite H.
  - destruct (Str.endswith (Str.lower path) ".docx") eqn:Hd.
    + apply docx_is_not_pdf in Hd. congruence.
    + by rewrite H.
Qed.

Lemma dispatch_unsupported path :
  supported path = false →
  Str.endswith (Str.lower path) ".docx" = false
  ∧ Str.endswith (Str.lower path) ".pdf" = false.
Proof. unfold supported. by intros [? ?]%orb_false_iff. Qed.

(** [read_docx_metadata] never returns. *)
Lemma read_docx_metadata_fails E path fs :
  ∃ e, read_docx_metadata E path fs = (inl e, fs).
Proof.
  destruct (Document_ E path fs) as [[e|doc] fs0] eqn:Hdoc.
  - exists e. unfold read_docx_metadata. erewrite bind_inl by done.
    revert Hdoc. unfold Document_.
    destruct (fault E Document_open); [by intros [= _ <-]|].
    destruct (fs !! path) as [[doc|pdf|content]|]; by intros [= _ <-].
  - revert Hdoc. unfold Document_.
    destruct (fault E Document_open) eqn:Hf; [done|].
    destruct (fs !! path) as [[doc'|pdf|content]|] eqn:Hp; try done.
    intros _. eexists. by apply read_docx_metadata_raises.
Qed.

(** The readers leave the files and return a record of the four keys. *)
Lemma _read_metadata_try_returns E path fs :
  (∃ e, _read_metadata_try E path fs = (inl e, fs))
  ∨ (∃ t c d g, _read_metadata_try E path fs = (inr (record t c d g), fs)).
Proof.
  unfold _read_metadata_try.
  destruct (Str.endswith (Str.lower path) ".docx").
  { left. apply read_docx_metadata_fails. }
  unfold read_pdf_metadata, bind, PdfReader.
  destruct (Str.endswith (Str.lower path) ".pdf"); [|left; by eexists].
  destruct (fault E PdfReader_open); [left; by eexists|].
  destruct (fs !! path) as [[doc|pdf|content]|]; try (left; by eexists).
  right. by eexists _, _, _, _.
Qed.

Lemma endswith_suffix_nonempty fmt path :
  Str.endswith (Str.lower path) (suffix fmt) = true → path ≠ "".
Proof. intros H ->. by destruct fmt. Qed.

(** X15. Reading the metadata into the text box never raises and never
    touches the files. When no file is chosen or the read fails the text
    stays as it was, in the second case with an error box that carries the
    exception's message. Otherwise the old text is replaced by four lines,
    one for each key of the record in its order. *)
Theorem read_metadata_shows_four_lines :
  ∀ (E : env) (path metadata_text : string) (fs : gmap string file),
    ∃ text' shown,
      _read_metadata E path metadata_text fs = (inr (text', shown), fs)
      ∧ (path = "" → text' = metadata_text ∧ shown = None)
      ∧ (∀ e, path ≠ "" → _read_metadata_try E path fs = (inl e, fs) →
              text' = metadata_text
              ∧ shown = Some (showerror "Erro"
                                ("Não foi possível ler os metadados: " +:+ exn_msg e)))
      ∧ (∀ t c d g, path ≠ "" →
              _read_metadata_try E path fs = (inr (record t c d g), fs) →
              shown = None
              ∧ text' = "DC:TITLE: " +:+ t +:+ String "010"
                          ("DC:CREATOR: " +:+ c +:+ String "010"
                             ("CP:DESCRIPTION: " +:+ d +:+ String "010"
                                ("CP:CATEGORY: " +:+ g +:+ String "010" "")))).
Proof.
  intros E path metadata_text fs. destruct path as [|a path].
  { exists metadata_text, None. by repeat split. }
  unfold _read_metadata, try_except, bind.
  destruct (_read_metadata_try_returns E (String a path) fs)
    as [[e Hread]|(t & c & d & g & Hread)]; rewrite Hread.
  - eexists _, _. split; [done|]. split; [done|]. split.
    + by intros e' _ [= <-].
    + by intros t c d g _ [=].
  - eexists _, _. split; [done|]. split; [done|]. split.
    + by intros e' _ [=].
    + intros t' c' d' g' _ [= <- <- <- <-]. split; [done|].
      unfold metadata_lines, record. cbn [foldr fst snd]. reflexivity.
Qed.

(** X16. What is saved is what is loaded, for a PDF: after a save of four
    fields that succeeded, loading the file into any form with the four
    entries gives back the form that was saved, with the same path and the
    same content in each entry. *)
Theorem saved_fields_are_loaded_back :
  ∀ (E : env) (path t c d g : string) (fs : gmap string file),
    no_faults E →
    Str.endswith (Str.lower path) ".pdf" = true →
    has_format Pdf (fs !! path) = true →
    fs !! temp_name E fs ".pdf" = None →
    ∃ fs',
      _save_metadata E
        {| editing_path := Some path;
           edit_entries := [("title", t); ("creator", c); ("description", d);
                            ("category", g)] |} fs
      = (inr (box (showinfo "Sucesso" "Metadados atualizados!")), fs')
      ∧ ∀ form,
          (edit_entries form).*1 = ["title"; "creator"; "description"; "category"] →
          _load_for_edit E path form fs'
          = (inr ({| editing_path := Some path;
                     edit_entries := [("title", t); ("creator", c);
                                      ("description", d); ("category", g)] |},
                  None), fs').
Proof.
  intros E path t c d g fs HE Hext Hfmt Htemp.
  apply has_format_pdf in Hfmt as [pdf Hp].
  pose proof (endswith_suffix_nonempty Pdf path Hext) as Hpath.
  eexists. split.
  - unfold _save_metadata. cbn [editing_path edit_entries].
    destruct path as [|a path]; [done|].
    unfold entry_get. cbn [dict_get String.eqb Ascii.eqb Bool.eqb].
    unfold try_except, bind at 1 2 3 4, ret at 1 2 3 4.
    rewrite (dispatch_save E Pdf) by done. unfold bind, write_metadata.
    by rewrite (write_pdf_metadata_done E _ t c d g fs pdf).
  - intros form Hkeys. unfold _load_for_edit.
    destruct path as [|a path]; [done|].
    unfold try_except, bind. rewrite (dispatch_read E Pdf) by done.
    unfold read_metadata. rewrite read_pdf_after_write by apply HE.
    unfold ret. f_equal. f_equal. f_equal.
    destruct (edit_entries form) as [|[k1 v1] [|[k2 v2] [|[k3 v3] [|[k4 v4] [|]]]]];
      try done.
    injection Hkeys as -> -> -> ->. reflexivity.
Qed.

Lemma edit_entries_keys (f : string → string) (entries : dict) :
  ((fun kv : string * string => (kv.1, f kv.1)) <$> entries).*1 = entries.*1.
Proof.
  induction entries as [|[k v] entries IH]; [done|].
  rewrite !fmap_cons. by f_equal.
Qed.

(** X17. Loading a PDF into the fresh edit form and saving it without
    touching the entries changes nothing of what the reader reads: the
    save succeeds, and the record read from the file afterwards is the
    record read before. *)
Theorem load_then_save_keeps_what_is_read :
  ∀ (E : env) (path : string) (fs : gmap string file),
    no_faults E →
    Str.endswith (Str.lower path) ".pdf" = true →
    has_format Pdf (fs !! path) = true →
    fs !! temp_name E fs ".pdf" = None →
    ∃ self' fs' data,
      _load_for_edit E path _build_edit_tab fs = (inr (self', None), fs)
      ∧ _save_metadata E self' fs
        = (inr (box (showinfo "Sucesso" "Metadados atualizados!")), fs')
      ∧ _read_metadata_try E path fs = (inr data, fs)
      ∧ _read_metadata_try E path fs' = (inr data, fs').
Proof.
  intros E path fs HE Hext Hfmt Htemp.
  apply has_format_pdf in Hfmt as [pdf Hp].
  pose proof (endswith_suffix_nonempty Pdf path Hext) as Hpath.
  assert (∃ t c d g, _read_metadata_try E path fs = (inr (record t c d g), fs))
    as (t & c & d & g & Hread).
  { rewrite (dispatch_read E Pdf) by done. unfold read_metadata, read_pdf_metadata, bind.
    rewrite (PdfReader_readable E path fs pdf) by (done || apply HE).
    by eexists _, _, _, _. }
  exists {| editing_path := Some path;
            edit_entries := [("title", t); ("creator", c); ("description", d);
                             ("category", g)] |}.
  eexists _, (record t c d g).
  split; [|split; [|split]].
  - unfold _load_for_edit. destruct path as [|a path]; [done|].
    unfold try_except, bind. by rewrite Hread.
  - unfold _save_metadata. cbn [editing_path edit_entries].
    destruct path as [|a path]; [done|].
    unfold entry_get. cbn [dict_get String.eqb Ascii.eqb Bool.eqb].
    unfold try_except, bind at 1 2 3 4, ret at 1 2 3 4.
    rewrite (dispatch_save E Pdf) by done. unfold bind, write_metadata.
    by rewrite (write_pdf_metadata_done E _ t c d g fs pdf).
  - done.
  - rewrite (dispatch_read E Pdf) by done. apply read_pdf_after_write, HE.
Qed.

(** X18. The edit form keeps its four entries, so that saving never raises:
    the form is built with the keys [title], [creator], [description] and
    [category]; loading never raises, never touches the files and keeps
    the keys of the form, and keeps the whole form when no file is chosen
    or an error is shown; and saving a form with these keys always returns
    a message box, the warning and untouched files when no file has been
    loaded. *)
Theorem edit_form_keeps_its_four_entries :
  ∀ (E : env) (path : string) (self : edit_tab) (fs : gmap string file),
    (edit_entries _build_edit_tab).*1 = ["title"; "creator"; "description"; "category"]
    ∧ (∃ self' shown,
         _load_for_edit E path self fs = (inr (self', shown), fs)
         ∧ (edit_entries self').*1 = (edit_entries self).*1
         ∧ (path = "" ∨ is_Some shown → self' = self))
    ∧ ((edit_entries self).*1 = ["title"; "creator"; "description"; "category"] →
       ∃ shown fs',
         _save_metadata E self fs = (inr shown, fs')
         ∧ (editing_path self = None ∨ editing_path self = Some "" →
            shown = showwarning "Atenção" "Selecione um arquivo primeiro."
            ∧ fs' = fs)).
Proof.
  intros E path self fs. split; [done|]. split.
  - destruct path as [|a path].
    { exists self, None. split; [done|]. split; [done|]. done. }
    unfold _load_for_edit, try_except, bind.
    destruct (_read_metadata_try_returns E (String a path) fs)
      as [[e Hread]|(t & c & d & g & Hread)]; rewrite Hread.
    + eexists self, _. by repeat split.
    + eexists _, None. split; [done|]. split.
      * cbn [edit_entries].
        match goal with
        | |- ((fun kv => (kv.1, default "" (dict_get ?m kv.1))) <$> _).*1 = _ =>
            apply (edit_entries_keys (fun key => default "" (dict_get m key)))
        end.
      * intros [?|[? ?]]; done.
  - intros Hkeys. unfold _save_metadata.
    destruct (editing_path self) as [[|a editing]|].
    + eexists _, fs. split; [done|]. by intros _.
    + destruct (edit_entries self)
        as [|[k1 v1] [|[k2 v2] [|[k3 v3] [|[k4 v4] [|]]]]]; try done.
      injection Hkeys as -> -> -> ->.
      unfold entry_get. cbn [dict_get String.eqb Ascii.eqb Bool.eqb].
      unfold try_except, bind at 1 2 3 4, ret at 1 2 3 4.
      destruct (bind (_save_metadata_try E (String a editing) v1 v2 v3 v4)
                  (fun shown => ret (box shown)) fs) as [[e|shown] fs'];
        eexists _, _; (split; [done|]); by intros [|].
    + eexists _, fs. split; [done|]. by intros _.
Qed.

(** X19. A file whose name ends neither in [.docx] nor in [.pdf] is
    refused by every metadata handler: each shows its error box with the
    message of the [ValueError], and the files, the text box and the form
    are what they were. *)
Theorem unsupported_names_are_refused_by_every_handler :
  ∀ (E : env) (path : string) (fs : gmap string file),
    path ≠ "" →
    supported path = false →
    _clear_metadata E path fs
    = (inr (Some (showerror "Erro"
                    ("Não foi possível limpar os metadados: "
                     +:+ "Formato não suportado"))), fs)
    ∧ (∀ metadata_text,
         _read_metadata E path metadata_text fs
         = (inr (metadata_text,
                 Some (showerror "Erro"
                         ("Não foi possível ler os metadados: "
                          +:+ "Formato não suportado"))), fs))
    ∧ (∀ self,
         _load_for_edit E path self fs
         = (inr (self,
                 Some (showerror "Erro"
                         ("Não foi possível carregar os metadados: "
                          +:+ "Formato não suportado"))), fs))
    ∧ (∀ t c d g,
         _save_metadata E
           {| editing_path := Some path;
              edit_entries := [("title", t); ("creator", c); ("description", d);
                               ("category", g)] |} fs
         = (inr (box (showerror "Erro"
                        ("Não foi possível salvar os metadados: "
                         +:+ "Formato não suportado"))), fs)).
Proof.
  intros E path fs Hpath [Hdocx Hpdf]%dispatch_unsupported.
  destruct path as [|a path]; [done|].
  split; [|split; [|split]].
  - unfold _clear_metadata, _clear_metadata_try, try_except, bind.
    by rewrite Hdocx, Hpdf.
  - intros metadata_text.
    unfold _read_metadata, _read_metadata_try, try_except, bind.
    by rewrite Hdocx, Hpdf.
  - intros self.
    unfold _load_for_edit, _read_metadata_try, try_except, bind.
    by rewrite Hdocx, Hpdf.
  - intros t c d g.
    unfold _save_metadata, _save_metadata_try, entry_get, try_except.
    cbn [editing_path edit_entries dict_get String.eqb Ascii.eqb Bool.eqb].
    unfold bind. by rewrite Hdocx, Hpdf.
Qed.

(** X20. The metadata of a word-processing document cannot be read:
    [read_docx_metadata] raises on every call, the library's exception
    when the document cannot be opened and otherwise [AttributeError], for
    [creator] when the author is empty and for [description] when it is
    not, since python-docx has neither property. So on a name that ends in
    [.docx] the read handler and the load handler of the edit form always
    show their error box and leave the files, the text and the form as
    they were. *)
Theorem docx_metadata_cannot_be_read :
  ∀ (E : env) (path : string) (fs : gmap string file),
    Str.endswith (Str.lower path) ".docx" = true →
    ∃ e,
      read_docx_metadata E path fs = (inl e, fs)
      ∧ (∀ doc,
           fault E Document_open = None →
           fs !! path = Some (DocxFile doc) →
           e = AttributeError (if Str.truthy (author (core_properties doc))
                               then "description" else "creator"))
      ∧ (∀ metadata_text,
           _read_metadata E path metadata_text fs
           = (inr (metadata_text,
                   Some (showerror "Erro"
                           ("Não foi possível ler os metadados: " +:+ exn_msg e))),
              fs))
      ∧ (∀ self,
           _load_for_edit E path self fs
           = (inr (self,
                   Some (showerror "Erro"
                           ("Não foi possível carregar os metadados: "
                            +:+ exn_msg e))),
              fs)).
Proof.
  intros E path fs Hext.
  pose proof (endswith_suffix_nonempty Docx path Hext) as Hpath.
  destruct (read_docx_metadata_fails E path fs) as [e Hread].
  exists e. split; [done|]. split; [|split].
  - intros doc Hf Hp.
    rewrite (read_docx_metadata_raises E path fs doc Hf Hp) in Hread.
    by injection Hread as <-.
  - intros metadata_text. unfold _read_metadata.
    destruct path as [|a path]; [done|].
    unfold try_except, bind. rewrite (dispatch_read E Docx) by done.
    unfold read_metadata. by rewrite Hread.
  - intros self. unfold _load_for_edit.
    destruct path as [|a path]; [done|].
    unfold try_except, bind. rewrite (dispatch_read E Docx) by done.
    unfold read_metadata. by rewrite Hread.
Qed.

(** X21. What a write leaves in a word-processing document, when no
    library call fails: the title, the author and the category hold
    [str(field or None)], which is the field when it is not empty and the
    text [None] when it is; the description of the document, which
    python-docx calls [comments], is what it was, whatever the description
    field; paragraphs, tables and sections are kept. So the clearer leaves
    the text [None] in three properties and the description in place. *)
Theorem docx_write_stores_str_of_the_fields :
  ∀ (E : env) (path t c d g : string) (fs : gmap string file) (doc : Document),
    no_faults E →
    fs !! path = Some (DocxFile doc) →
    fs !! temp_name E fs ".docx" = None →
    ∃ doc',
      write_docx_metadata E path t c d g fs = (inr tt, <[path := DocxFile doc']> fs)
      ∧ title (core_properties doc') = Some (if String.eqb t "" then "None" else t)
      ∧ author (core_properties doc') = Some (if String.eqb c "" then "None" else c)
      ∧ category (core_properties doc') = Some (if String.eqb g "" then "None" else g)
      ∧ comments (core_properties doc') = comments (core_properties doc)
      ∧ with_core_properties doc' (core_properties doc) = doc
      ∧ (clear_docx_metadata E path fs
         = (inr tt,
            <[path := DocxFile
                        (with_core_properties doc
                           {| title := Some "None"; author := Some "None";
                              comments := comments (core_properties doc);
                              category := Some "None" |})]> fs)).
Proof.
  intros E path t c d g fs doc HE Hp Ht.
  exists (set_core_properties doc t c d g).
  split; [by apply write_docx_metadata_done|].
  split; [by destruct t|]. split; [by destruct c|]. split; [by destruct g|].
  split; [done|]. split; [by destruct doc|].
  unfold clear_docx_metadata. by rewrite (write_docx_metadata_done E path "" "" "" "" fs doc).
Qed.

(** ** Instances of the further properties *)

Lemma city_is_a_token_of_the_letter :
  is_name "CITY" = true
  ∧ ∃ i p,
      i ∈ traversal letter
      ∧ store letter !! i = Some p
      ∧ Str.contains (paragraph_text p) (placeholder "CITY") = true.
Proof.
  apply (scanned_names_are_tokens_of_the_text letter "CITY").
  vm_compute. left.
Defined.

Lemma letter_keeps_its_structure :
  List.length (store (replace_placeholders_of ana letter)) = 4
  ∧ store (replace_placeholders_of ana letter) !! 7 = store letter !! 7.
Proof.
  destruct (substitutor_keeps_the_structure ana letter) as (Hlength & Hother & _).
  split.
  - rewrite Hlength. reflexivity.
  - apply Hother. vm_compute. intros Hin.
    repeat (apply elem_of_cons in Hin as [Hin|Hin]; [discriminate|]).
    by apply not_elem_of_nil in Hin.
Defined.

Lemma phone_is_not_in_the_letter :
  replace_placeholders_of [("PHONE", "555 0100")] letter = letter.
Proof.
  apply (map_without_matches_changes_nothing [("PHONE", "555 0100")] letter).
  vm_compute. reflexivity.
Defined.

Lemma letter_filled_twice :
  replace_placeholders_of filled (replace_placeholders_of filled letter)
  = replace_placeholders_of filled letter.
Proof.
  apply (filling_twice_is_filling_once filled letter).
  - repeat constructor.
  - vm_compute. reflexivity.
Defined.

Lemma filled_letter_has_no_placeholder :
  extract_placeholders_of (replace_placeholders_of filled letter) = [].
Proof.
  destruct (scan_of_filled_document filled letter) as [_ Hnone].
  - repeat constructor.
  - vm_compute. reflexivity.
  - apply Hnone. intros name Hin%list_elem_of_In. vm_compute in Hin.
    destruct Hin as [<-|[<-|[<-|[]]]]; by eexists.
Defined.

Lemma edit_of_the_letter_keeps_the_scan :
  ∃ fs',
    run_edit quiet Docx (Write "T" "C" "D" "G") "cv.docx" disk = (inr tt, fs')
    ∧ fs' !! "cv.pdf" = disk !! "cv.pdf".
Proof.
  destruct (metadata_edit_keeps_the_content quiet Docx (Write "T" "C" "D" "G")
              "cv.docx" disk) as (fs' & Hrun & Hother & _).
  - exact quiet_has_no_faults.
  - vm_compute. reflexivity.
  - vm_compute. reflexivity.
  - exists fs'. split; [exact Hrun|]. apply Hother. discriminate.
Defined.

Lemma full_disk_leaves_a_temporary_file :
  ∃ fs',
    run_edit disk_full Pdf Clear "cv.pdf" disk
    = (inl (Exception "OSError" "No space left on device"), fs')
    ∧ is_Some (fs' !! "/tmp/tmp0.pdf").
Proof.
  destruct (failed_render_leaves_the_temporary_file disk_full Pdf Clear "cv.pdf" disk
              {| raised := Exception "OSError" "No space left on device";
                 debris := Some "PK" |}) as (fs' & Hrun & Hleft & _).
  - reflexivity.
  - vm_compute. reflexivity.
  - discriminate.
  - reflexivity.
  - reflexivity.
  - vm_compute. reflexivity.
  - exists fs'. split; [exact Hrun|exact Hleft].
Defined.

Lemma write_after_clear_is_the_write :
  run_edit quiet Docx (Write "T" "C" "D" "G") "cv.docx"
    (<["cv.docx" := DocxFile (set_core_properties letter "" "" "" "")]> disk)
  = run_edit quiet Docx (Write "T" "C" "D" "G") "cv.docx" disk.
Proof.
  apply (second_edit_overrides_the_first quiet Docx Clear (Write "T" "C" "D" "G")
           "cv.docx" disk).
  - exact quiet_has_no_faults.
  - vm_compute. reflexivity.
  - vm_compute. reflexivity.
  - vm_compute. reflexivity.
  - vm_compute. reflexivity.
Defined.

Lemma cleared_scan_reads_empty :
  ∃ fs',
    clear_pdf_metadata quiet "cv.pdf" disk = (inr tt, fs')
    ∧ read_pdf_metadata quiet "cv.pdf" fs'
      = (inr [("DC:TITLE", ""); ("DC:CREATOR", ""); ("CP:DESCRIPTION", "");
              ("CP:CATEGORY", "")], fs').
Proof.
  apply (read_after_clear_is_empty quiet "cv.pdf" disk).
  - exact quiet_has_no_faults.
  - vm_compute. reflexivity.
  - vm_compute. reflexivity.
  - repeat (constructor; [vm_compute; reflexivity|]). constructor.
Defined.

Lemma upper_case_name_is_a_document :
  _read_metadata_try quiet "CV.DOCX" = read_docx_metadata quiet "CV.DOCX".
Proof.
  destruct (dispatch_by_the_end_of_the_name quiet "CV" ".DOCX") as (Hdocx & _).
  destruct Hdocx as [Hread _].
  - reflexivity.
  - exact Hread.
Defined.

Lemma entries_of_the_letter :
  ∃ self',
    _load_template quiet "cv.docx" {| template_path := None; placeholder_entries := [] |}
      disk
    = (inr (self', None), disk)
    ∧ placeholder_entries self' = [("CITY", ""); ("NAME", ""); ("ROLE", "")].
Proof.
  destruct (load_template_makes_one_entry_per_name quiet "cv.docx"
              {| template_path := None; placeholder_entries := [] |} disk)
    as (self' & shown & Hrun & _ & _ & Hread).
  destruct (Hread letter) as (Hshown & _ & Hentries).
  - discriminate.
  - reflexivity.
  - vm_compute. reflexivity.
  - exists self'. split.
    + rewrite Hshown in Hrun. exact Hrun.
    + rewrite Hentries. vm_compute. reflexivity.
Defined.

Lemma empty_field_and_no_writes_nothing :
  _generate_document quiet
    {| template_path := Some "cv.docx";
       placeholder_entries := [("CITY", "Lisbon"); ("NAME", ""); ("ROLE", "Engineer")] |}
    false "out.docx" disk
  = (inr None, disk).
Proof.
  destruct (generate_document_writes_only_when_confirmed quiet
              {| template_path := Some "cv.docx";
                 placeholder_entries :=
                   [("CITY", "Lisbon"); ("NAME", ""); ("ROLE", "Engineer")] |}
              false "out.docx" disk)
    as (shown & fs' & Hrun & _ & _ & Hguard & _).
  destruct (Hguard "cv.docx") as [Hshown Hfs].
  - reflexivity.
  - discriminate.
  - right. split; [reflexivity|]. exists "NAME". vm_compute. right. left.
  - rewrite Hshown, Hfs in Hrun. exact Hrun.
Defined.

Lemma letter_filled_through_the_form :
  ∃ fs',
    _generate_document quiet
      {| template_path := Some "cv.docx"; placeholder_entries := filled |}
      true "out.docx" disk
    = (inr (Some (box (showinfo "Sucesso" ("Currículo salvo em " +:+ "out.docx")))),
       fs')
    ∧ extract_placeholders quiet "out.docx" fs' = (inr [], fs').
Proof.
  destruct (generated_document_has_no_placeholder_left quiet
              {| template_path := Some "cv.docx"; placeholder_entries := filled |}
              "cv.docx" letter true "out.docx" disk)
    as (fs' & Hrun & _ & Hscan).
  - reflexivity.
  - reflexivity.
  - reflexivity.
  - discriminate.
  - vm_compute. reflexivity.
  - vm_compute. reflexivity.
  - vm_compute. reflexivity.
  - repeat constructor.
  - discriminate.
  - left. reflexivity.
  - exists fs'. split; [exact Hrun|exact Hscan].
Defined.

Lemma text_box_of_the_scan :
  ∃ text',
    _read_metadata quiet "cv.pdf" "old text" disk = (inr (text', None), disk)
    ∧ text' = "DC:TITLE: " +:+ String "010"
                ("DC:CREATOR: " +:+ String "010"
                   ("CP:DESCRIPTION: " +:+ String "010"
                      ("CP:CATEGORY: " +:+ String "010" ""))).
Proof.
  destruct (read_metadata_shows_four_lines quiet "cv.pdf" "old text" disk)
    as (text' & shown & Hrun & _ & _ & Hread).
  destruct (Hread "" "" "" "") as [Hshown Htext].
  - discriminate.
  - vm_compute. reflexivity.
  - exists text'. split.
    + rewrite Hshown in Hrun. exact Hrun.
    + rewrite Htext. vm_compute. reflexivity.
Defined.

Lemma saved_scan_is_loaded_back :
  ∃ fs',
    _save_metadata quiet
      {| editing_path := Some "cv.pdf";
         edit_entries := [("title", "T"); ("creator", "C"); ("description", "D");
                          ("category", "G")] |} disk
    = (inr (box (showinfo "Sucesso" "Metadados atualizados!")), fs')
    ∧ _load_for_edit quiet "cv.pdf" _build_edit_tab fs'
      = (inr ({| editing_path := Some "cv.pdf";
                 edit_entries := [("title", "T"); ("creator", "C");
                                  ("description", "D"); ("category", "G")] |},
              None), fs').
Proof.
  destruct (saved_fields_are_loaded_back quiet "cv.pdf" "T" "C" "D" "G" disk)
    as (fs' & Hsave & Hload).
  - exact quiet_has_no_faults.
  - vm_compute. reflexivity.
  - vm_compute. reflexivity.
  - vm_compute. reflexivity.
  - exists fs'. split; [exact Hsave|]. apply Hload. reflexivity.
Defined.

Lemma scan_loaded_and_saved :
  ∃ self' fs' data,
    _load_for_edit quiet "cv.pdf" _build_edit_tab disk = (inr (self', None), disk)
    ∧ _save_metadata quiet self' disk
      = (inr (box (showinfo "Sucesso" "Metadados atualizados!")), fs')
    ∧ _read_metadata_try quiet "cv.pdf" disk = (inr data, disk)
    ∧ _read_metadata_try quiet "cv.pdf" fs' = (inr data, fs').
Proof.
  apply (load_then_save_keeps_what_is_read quiet "cv.pdf" disk).
  - exact quiet_has_no_faults.
  - vm_compute. reflexivity.
  - vm_compute. reflexivity.
  - vm_compute. reflexivity.
Defined.

Lemma fresh_form_warns_on_save :
  _save_metadata quiet _build_edit_tab disk
  = (inr (showwarning "Atenção" "Selecione um arquivo primeiro."), disk).
Proof.
  destruct (edit_form_keeps_its_four_entries quiet "cv.pdf" _build_edit_tab disk)
    as (_ & _ & Hsave).
  destruct Hsave as (shown & fs' & Hrun & Hwarn).
  - reflexivity.
  - destruct Hwarn as [Hshown Hfs].
    + left. reflexivity.
    + rewrite Hshown, Hfs in Hrun. exact Hrun.
Defined.

Lemma notes_are_refused_by_the_clear_handler :
  _clear_metadata quiet "notes.txt" disk
  = (inr (Some (showerror "Erro"
                  ("Não foi possível limpar os metadados: "
                   +:+ "Formato não suportado"))), disk).
Proof.
  destruct (unsupported_names_are_refused_by_every_handler quiet "notes.txt" disk)
    as (Hclear & _).
  - discriminate.
  - vm_compute. reflexivity.
  - exact Hclear.
Defined.

Lemma letter_cannot_be_loaded_for_edit :
  _load_for_edit quiet "cv.docx" _build_edit_tab disk
  = (inr (_build_edit_tab,
          Some (showerror "Erro"
                  ("Não foi possível carregar os metadados: "
                   +:+ "'CoreProperties' object has no attribute 'creator'"))),
     disk).
Proof.
  destruct (docx_metadata_cannot_be_read quiet "cv.docx" disk)
    as (e & _ & Hcreator & _ & Hload).
  - vm_compute. reflexivity.
  - rewrite (Hload _build_edit_tab). rewrite (Hcreator letter).
    + reflexivity.
    + reflexivity.
    + vm_compute. reflexivity.
Defined.

Lemma cleared_letter_keeps_its_description :
  ∃ doc',
    write_docx_metadata quiet "cv.docx" "" "" "" "" disk
    = (inr tt, <[ "cv.docx" := DocxFile doc' ]> disk)
    ∧ title (core_properties doc') = Some "None"
    ∧ comments (core_properties doc') = Some "A letter to fill in".
Proof.
  destruct (docx_write_stores_str_of_the_fields quiet "cv.docx" "" "" "" "" disk letter)
    as (doc' & Hrun & Htitle & _ & _ & Hcomments & _).
  - intros call. reflexivity.
  - vm_compute. reflexivity.
  - vm_compute. reflexivity.
  - exists doc'. split; [exact Hrun|]. split; [exact Htitle|exact Hcomments].
Defined.
